(** * greenlight: mail delivery, password secrets, user store and tokens

    A shallow embedding of [internal/mailer/mailer.go] and of the two files of
    package [data] (users and tokens) that travel with it, followed by the
    properties of that code.

    Conventions.
    - A Go [string] is a Rocq [string] (a sequence of bytes); [len] is
      [String.length].
    - A Go [error] value is an [option]: [None] is [nil].
    - Code that talks to the outside (the SMTP server, the SQL database, the
      clock, the random source) runs against an explicit world: either a state
      that is passed along, or the outcome of the call given as an argument.
    - Of the packages that are not part of the repository, html/template,
      the SMTP server behind go-mail and bcrypt are parameters;
      encoding/base32 and crypto/sha256 are embedded and checked on known
      values; the database is a model of the tables, with the statements of
      the package run on it. *)

From stdpp Require Import base option list strings gmap.
From Stdlib Require Import ZArith Lia Ascii.

Open Scope Z_scope.

(** Go's [byte], and [[]byte] as a list of them. *)
Abbreviation byte := Byte.byte.

#[global] Instance byte_eq_dec : EqDecision byte := Byte.byte_eq_dec.

(** ** Package time *)

Module time.

(** [time.Duration]: a number of nanoseconds. *)
Definition Duration := Z.

Definition Nanosecond : Duration := 1.
Definition Millisecond : Duration := 1000000 * Nanosecond.
Definition Second : Duration := 1000 * Millisecond.

(** [time.Time]: an instant, in nanoseconds since the epoch. *)
Definition Time := Z.

(** [t.Add(d)]. *)
Definition Add (t : Time) (d : Duration) : Time := t + d.

End time.

(** ** Package mailer *)

Module mailer.

(** [mail.Dialer], as far as [New] configures it. *)
Record Dialer := {
  Host : string;
  Port : Z;
  Username : string;
  Password : string;
  Timeout : time.Duration
}.

Record Mailer := {
  dialer : Dialer;
  sender : string
}.

Definition New (host : string) (port : Z) (username password sender : string) : Mailer :=
  let dialer := {| Host := host; Port := port; Username := username;
                   Password := password; Timeout := 5 * time.Second |} in
  {| dialer := dialer; sender := sender |}.

(** [mail.Message], as far as [Send] fills it: three headers, the body and
    one alternative part, each part a content type with its text. *)
Record Message := {
  To : string;
  From : string;
  Subject : string;
  Body : string * string;
  Alternative : string * string
}.

Section Send.

(** Go's [error] values, the parsed template and the payload stay abstract. *)
Variable error : Type.
Variable Template : Type.
Variable Data : Type.

(** [template.New("email").ParseFS(templateFS, path)]: the embedded file
    system never changes, so the result depends on the path alone. *)
Variable ParseFS : string -> error + Template.

(** [tmpl.ExecuteTemplate(&buf, name, data)] with the buffer's final text. *)
Variable ExecuteTemplate : Template -> string -> Data -> error + string.

(** What [Send] does to the outside, in the order it does it. *)
Inductive event :=
| EvDial (msg : Message) (result : option error)
| EvSleep (d : time.Duration).

(** The world [Send] runs in: [network k] is the outcome of the delivery
    attempt that is made when [k] attempts were made before it, [log] is
    everything done so far, oldest first. *)
Record world := {
  network : nat -> option error;
  log : list event
}.

(** The number of delivery attempts in a log, and the time slept in it. *)
Definition dials (l : list event) : nat :=
  foldr (fun e n => match e with EvDial _ _ => S n | EvSleep _ => n end) O l.

Definition slept (l : list event) : time.Duration :=
  foldr (fun e acc => match e with EvSleep d => d + acc | EvDial _ _ => acc end) 0 l.

(** The events of [n] rounds that all fail: an attempt, then the pause that
    follows it; the first attempt is the one the network sees as number [k]. *)
Fixpoint failed_rounds (net : nat -> option error) (msg : Message) (k n : nat)
  : list event :=
  match n with
  | O => []
  | S n' =>
      EvDial msg (net k) :: EvSleep (500 * time.Millisecond) :: failed_rounds net msg (S k) n'
  end.

(** A small state monad over the world. *)
Definition M (A : Type) : Type := world -> A * world.

#[local] Instance M_ret : MRet M := fun A a w => (a, w).

#[local] Instance M_bind : MBind M :=
  fun A B f m w => let (a, w') := m w in f a w'.

Definition emit (e : event) : M unit :=
  fun w => (tt, {| network := network w; log := log w ++ [e] |}).

(** [m.dialer.DialAndSend(msg)]. *)
Definition DialAndSend (d : Dialer) (msg : Message) : M (option error) :=
  fun w =>
    let r := network w (dials (log w)) in
    (r, {| network := network w; log := log w ++ [EvDial msg r] |}).

(** [time.Sleep(d)]. *)
Definition Sleep (d : time.Duration) : M unit := emit (EvSleep d).

(** The loop [for i := 1; i <= 3; i++ { ... }] followed by [return nil],
    with [left] the number of iterations still to run. *)
Fixpoint attempts (left : nat) (d : Dialer) (msg : Message) : M (option error) :=
  match left with
  | O => mret None
  | S left' =>
      err ← DialAndSend d msg;
      match err with
      | None => mret None
      | Some _ =>
          Sleep (500 * time.Millisecond);;
          attempts left' d msg
      end
  end.

Definition Send (m : Mailer) (recipient templateFile : string) (data : Data)
  : M (option error) :=
  match ParseFS ("templates/" +:+ templateFile) with
  | inl err => mret (Some err)
  | inr tmpl =>
      match ExecuteTemplate tmpl "subject" data with
      | inl err => mret (Some err)
      | inr subject =>
          match ExecuteTemplate tmpl "plainBody" data with
          | inl err => mret (Some err)
          | inr plainBody =>
              match ExecuteTemplate tmpl "htmlBody" data with
              | inl err => mret (Some err)
              | inr htmlBody =>
                  let msg := {| To := recipient;
                                From := sender m;
                                Subject := subject;
                                Body := ("text/plain", plainBody);
                                Alternative := ("text/html", htmlBody) |} in
                  attempts 3 (dialer m) msg
              end
          end
      end
  end.

(** The three fragments rendered, as [Send] needs them to reach delivery. *)
Definition renders (templateFile : string) (data : Data)
           (subject plainBody htmlBody : string) : Prop :=
  exists tmpl,
    ParseFS ("templates/" +:+ templateFile) = inr tmpl /\
    ExecuteTemplate tmpl "subject" data = inr subject /\
    ExecuteTemplate tmpl "plainBody" data = inr plainBody /\
    ExecuteTemplate tmpl "htmlBody" data = inr htmlBody.

(** Rendering stops at an error [err]: the template does not parse, or one
    of the fragments does not execute. *)
Definition render_fails_with (templateFile : string) (data : Data) (err : error) : Prop :=
  ParseFS ("templates/" +:+ templateFile) = inl err \/
  exists tmpl name,
    ParseFS ("templates/" +:+ templateFile) = inr tmpl /\
    name ∈ ["subject"; "plainBody"; "htmlBody"]%string /\
    ExecuteTemplate tmpl name data = inl err.

End Send.

Arguments EvDial {error} msg result.
Arguments EvSleep {error} d.
Arguments Build_world {error} network log.
Arguments network {error} w k.
Arguments log {error} w.
Arguments dials {error} l.
Arguments slept {error} l.
Arguments failed_rounds {error} net msg k n.
Arguments DialAndSend {error} d msg w.
Arguments Sleep {error} d w.
Arguments attempts {error} left d msg w.
Arguments Send {error Template Data} ParseFS ExecuteTemplate m recipient templateFile data w.
Arguments renders {error Template Data} ParseFS ExecuteTemplate templateFile data subject plainBody htmlBody.
Arguments render_fails_with {error Template Data} ParseFS ExecuteTemplate templateFile data err.

End mailer.

(** An instance to run [Send] on: one template file with the three
    fragments, one that lacks its HTML body, and an SMTP server that cannot be
    reached. *)
Module mailer_example.

Definition Template := list (string * string).

Definition ParseFS (path : string) : string + Template :=
  if String.eqb path "templates/user_welcome.tmpl" then
    inr [("subject", "Welcome to Greenlight!"); ("plainBody", "Hi, "); ("htmlBody", "<p>Hi, ")]%string
  else if String.eqb path "templates/no_html.tmpl" then
    inr [("subject", "Welcome to Greenlight!"); ("plainBody", "Hi, ")]%string
  else inl "template: pattern matches no files"%string.

Definition ExecuteTemplate (tmpl : Template) (name : string) (data : string)
  : string + string :=
  match list_find (fun kv => kv.1 = name) tmpl with
  | Some (_, (_, text)) => inr (text +:+ data)
  | None => inl ("html/template: " +:+ name +:+ " is undefined")
  end.

Definition m : mailer.Mailer :=
  mailer.New "smtp.example.com" 25 "greenlight" "secret" "Greenlight <no-reply@example.com>".

Definition unreachable : mailer.world string :=
  {| mailer.network := fun _ => Some "dial tcp: i/o timeout"%string; mailer.log := [] |}.

Definition welcome : mailer.Message :=
  {| mailer.To := "alice@example.com";
     mailer.From := "Greenlight <no-reply@example.com>";
     mailer.Subject := "Welcome to Greenlight!Alice";
     mailer.Body := ("text/plain", "Hi, Alice")%string;
     mailer.Alternative := ("text/html", "<p>Hi, Alice")%string |}.

End mailer_example.

(** ** Package validator *)

Module validator.

(** Modelled from the spec: package [internal/validator] is not among the
    sources. A validator carries field to message pairs, which are collected
    rather than raised at the first failure; [Check] records a message for a
    field when its condition is false, and a field keeps the first message
    recorded for it. *)
Record Validator := { Errors : gmap string string }.

Definition New : Validator := {| Errors := ∅ |}.

Definition Valid (v : Validator) : bool := bool_decide (Errors v = ∅).

Definition AddError (v : Validator) (key message : string) : Validator :=
  match Errors v !! key with
  | Some _ => v
  | None => {| Errors := <[key := message]> (Errors v) |}
  end.

Definition Check (v : Validator) (ok : bool) (key message : string) : Validator :=
  if ok then v else AddError v key message.

(** A compiled regular expression, by what it accepts. *)
Definition Regexp := string -> bool.

Definition Matches (value : string) (rx : Regexp) : bool := rx value.

End validator.

(** ** Package bcrypt (golang.org/x/crypto) *)

Module bcrypt.

(** The errors of the package: the one that reports a wrong password, and
    every other one by its text. *)
Inductive error :=
| ErrMismatchedHashAndPassword
| Failure (text : string).

(** [errors.Is(err, bcrypt.ErrMismatchedHashAndPassword)]. *)
Definition is_mismatch (err : error) : bool :=
  match err with
  | ErrMismatchedHashAndPassword => true
  | Failure _ => false
  end.

(** The package, as [password] uses it. [Rand] is the random source the salt
    is read from. *)
Record Package := {
  Rand : Type;
  GenerateFromPassword : list byte -> Z -> Rand -> error + list byte;
  CompareHashAndPassword : list byte -> list byte -> option error
}.

End bcrypt.

(** ** The SQL driver, and errors from outside *)

Module pq.

Definition dquote : string := String (Ascii.ascii_of_nat 34) EmptyString.

(** [pq.Error], the fields that identify a failure. *)
Record Error := {
  Code : string;
  Message : string;
  Constraint : string
}.

End pq.

Module errors.

(** The error values that reach package [data] from outside it:
    [sql.ErrNoRows], the sentinel of [database/sql] for an empty result; a
    [*pq.Error] of the driver; and any other one (a deadline that passed, a
    broken connection, a random source that failed) by its text. *)
Inductive error :=
| ErrNoRows
| DriverError (e : pq.Error)
| OtherError (text : string).

(** [err.Error()]. *)
Definition Error (err : error) : string :=
  match err with
  | ErrNoRows => "sql: no rows in result set"
  | DriverError e => "pq: " +:+ pq.Message e
  | OtherError text => text
  end.

(** [errors.Is(err, sql.ErrNoRows)]. *)
Definition Is_ErrNoRows (err : error) : bool :=
  match err with
  | ErrNoRows => true
  | _ => false
  end.

End errors.

(** ** Package crypto/rand *)

Module rand.

(** The random source at one call: it fails, or it has bytes to give. *)
Definition Reader := (errors.error + (nat -> byte))%type.

(** [rand.Read(b)] on a slice of [n] bytes: the error, or the slice filled. *)
Definition Read (r : Reader) (n : nat) : errors.error + list byte :=
  match r with
  | inl err => inl err
  | inr stream => inr (stream <$> seq 0 n)
  end.

End rand.

(** ** Package encoding/base32 *)

Module base32.

(** The alphabet of [StdEncoding] (RFC 4648). *)
Definition encodeStd : string := "ABCDEFGHIJKLMNOPQRSTUVWXYZ234567".

Definition u8 (b : byte) : Z := Z.of_N (Byte.to_N b).

(** [enc.encode[v & 31]]. *)
Definition encode (v : Z) : ascii :=
  default "A"%char (String.get (Z.to_nat (Z.land v 31)) encodeStd).

(** The eight 5-bit groups of a quantum of five bytes. *)
Definition quantum (s0 s1 s2 s3 s4 : Z) : list Z :=
  [ Z.shiftr s0 3;
    Z.lor (Z.land (Z.shiftl s0 2) 0x1F) (Z.land (Z.shiftr s1 6) 0x1F);
    Z.land (Z.shiftr s1 1) 0x1F;
    Z.lor (Z.land (Z.shiftl s1 4) 0x1F) (Z.land (Z.shiftr s2 4) 0x1F);
    Z.lor (Z.land (Z.shiftl s2 1) 0x1F) (Z.shiftr s3 7);
    Z.land (Z.shiftr s3 2) 0x1F;
    Z.lor (Z.land (Z.shiftl s3 3) 0x1F) (Z.shiftr s4 5);
    Z.land s4 0x1F ].

Definition chars (s0 s1 s2 s3 s4 : byte) : list ascii :=
  encode <$> quantum (u8 s0) (u8 s1) (u8 s2) (u8 s3) (u8 s4).

(** [Encode] without padding: five bytes give eight characters, and a last
    group of 1, 2, 3 or 4 bytes gives 2, 4, 5 or 7 of them. *)
Fixpoint Encode (src : list byte) : list ascii :=
  match src with
  | [] => []
  | [a] => take 2 (chars a Byte.x00 Byte.x00 Byte.x00 Byte.x00)
  | [a; b] => take 4 (chars a b Byte.x00 Byte.x00 Byte.x00)
  | [a; b; c] => take 5 (chars a b c Byte.x00 Byte.x00)
  | [a; b; c; d] => take 7 (chars a b c d Byte.x00)
  | a :: b :: c :: d :: e :: rest => chars a b c d e ++ Encode rest
  end.

(** [StdEncoding.WithPadding(NoPadding).EncodeToString(src)]. *)
Definition EncodeToString (src : list byte) : string :=
  String.string_of_list_ascii (Encode src).

End base32.

(** ** Package crypto/sha256 *)

Module sha256.

Definition mask32 : Z := 0xFFFFFFFF.

Definition add32 (x y : Z) : Z := Z.land (x + y) mask32.

(** [bits.RotateLeft32(x, -n)]. *)
Definition rotr (x n : Z) : Z :=
  Z.lor (Z.shiftr x n) (Z.land (Z.shiftl x (32 - n)) mask32).

Definition not32 (x : Z) : Z := Z.lxor x mask32.

(** The constants of the algorithm are the first 32 bits of the fractional
    parts of the cube roots ([_K]) and of the square roots (the initial state)
    of the first primes. *)
Definition is_prime (n : Z) : bool :=
  forallb (fun d => negb (n mod Z.of_nat d =? 0)) (seq 2 (Z.to_nat n - 2)).

Definition primes : list Z :=
  List.filter is_prime (Z.of_nat <$> seq 2 310).

(** The integer cube root, bit by bit from bit [bits - 1] down. *)
Fixpoint icbrt (bits : nat) (n acc : Z) : Z :=
  match bits with
  | O => acc
  | S b =>
      let c := acc + 2 ^ Z.of_nat b in
      icbrt b n (if c * c * c <=? n then c else acc)
  end.

Definition frac_cbrt (p : Z) : Z := Z.land (icbrt 36 (p * 2 ^ 96) 0) mask32.

Definition frac_sqrt (p : Z) : Z := Z.land (Z.sqrt (p * 2 ^ 64)) mask32.

Definition _K : list Z := Eval vm_compute in frac_cbrt <$> take 64 primes.

Definition _init : list Z := Eval vm_compute in frac_sqrt <$> take 8 primes.

Definition u8 (b : byte) : Z := Z.of_N (Byte.to_N b).

Definition to_byte (v : Z) : byte :=
  default Byte.x00 (Byte.of_N (Z.to_N (Z.land v 0xFF))).

(** A word from four bytes, and back, big-endian. *)
Definition be32 (b0 b1 b2 b3 : byte) : Z :=
  Z.lor (Z.lor (Z.shiftl (u8 b0) 24) (Z.shiftl (u8 b1) 16))
        (Z.lor (Z.shiftl (u8 b2) 8) (u8 b3)).

Definition put32 (v : Z) : list byte :=
  [ to_byte (Z.shiftr v 24); to_byte (Z.shiftr v 16); to_byte (Z.shiftr v 8); to_byte v ].

Definition put64 (v : Z) : list byte :=
  put32 (Z.shiftr v 32) ++ put32 v.

Fixpoint words (p : list byte) : list Z :=
  match p with
  | b0 :: b1 :: b2 :: b3 :: rest => be32 b0 b1 b2 b3 :: words rest
  | _ => []
  end.

Definition at_ (w : list Z) (i : nat) : Z := default 0 (w !! i).

(** The message schedule: [w[i]] for [i] from 16 to 63. *)
Definition extend (w : list Z) (i : nat) : list Z :=
  let v1 := at_ w (i - 2) in
  let t1 := Z.lxor (Z.lxor (rotr v1 17) (rotr v1 19)) (Z.shiftr v1 10) in
  let v2 := at_ w (i - 15) in
  let t2 := Z.lxor (Z.lxor (rotr v2 7) (rotr v2 18)) (Z.shiftr v2 3) in
  w ++ [add32 (add32 (add32 t1 (at_ w (i - 7))) t2) (at_ w (i - 16))].

Definition schedule (w16 : list Z) : list Z := foldl extend w16 (seq 16 48).

Record state := {
  va : Z; vb : Z; vc : Z; vd : Z; ve : Z; vf : Z; vg : Z; vh : Z
}.

Definition round (w : list Z) (s : state) (i : nat) : state :=
  let '{| va := a; vb := b; vc := c; vd := d; ve := e; vf := f; vg := g; vh := h |} := s in
  let t1 := add32 (add32 (add32 (add32 h
              (Z.lxor (Z.lxor (rotr e 6) (rotr e 11)) (rotr e 25)))
              (Z.lxor (Z.land e f) (Z.land (not32 e) g)))
              (at_ _K i)) (at_ w i) in
  let t2 := add32 (Z.lxor (Z.lxor (rotr a 2) (rotr a 13)) (rotr a 22))
                  (Z.lxor (Z.lxor (Z.land a b) (Z.land a c)) (Z.land b c)) in
  {| va := add32 t1 t2; vb := a; vc := b; vd := c;
     ve := add32 d t1; vf := e; vg := f; vh := g |}.

(** One 64-byte chunk of [blockGeneric]. *)
Definition block (h : state) (p : list byte) : state :=
  let w := schedule (words p) in
  let s := foldl (round w) h (seq 0 64) in
  {| va := add32 (va h) (va s); vb := add32 (vb h) (vb s);
     vc := add32 (vc h) (vc s); vd := add32 (vd h) (vd s);
     ve := add32 (ve h) (ve s); vf := add32 (vf h) (vf s);
     vg := add32 (vg h) (vg s); vh := add32 (vh h) (vh s) |}.

(** The chunks of a padded message; [n] bounds their number. *)
Fixpoint blocks (n : nat) (h : state) (p : list byte) : state :=
  match n with
  | O => h
  | S n' =>
      match p with
      | [] => h
      | _ => blocks n' (block h (take 64 p)) (drop 64 p)
      end
  end.

(** The padding of [checkSum]: 0x80, zeros up to 56 modulo 64, and the
    length in bits as 8 bytes. *)
Definition pad (data : list byte) : list byte :=
  let len := Z.of_nat (length data) in
  let r := len mod 64 in
  let zeros := if r <? 56 then 55 - r else 64 + 55 - r in
  data ++ [Byte.x80] ++ replicate (Z.to_nat zeros) Byte.x00
       ++ put64 (Z.land (Z.shiftl len 3) 0xFFFFFFFFFFFFFFFF).

Definition h0 : state :=
  {| va := at_ _init 0; vb := at_ _init 1; vc := at_ _init 2; vd := at_ _init 3;
     ve := at_ _init 4; vf := at_ _init 5; vg := at_ _init 6; vh := at_ _init 7 |}.

(** [sha256.Sum256(data)], as the slice of its 32 bytes. *)
Definition Sum256 (data : list byte) : list byte :=
  let p := pad data in
  let s := blocks (length p) h0 p in
  put32 (va s) ++ put32 (vb s) ++ put32 (vc s) ++ put32 (vd s) ++
  put32 (ve s) ++ put32 (vf s) ++ put32 (vg s) ++ put32 (vh s).

End sha256.


(** ** Package data *)

Module data.

(** The errors the package returns: its own sentinels, or an error that
    reached it from outside, returned as it came. *)
Inductive error :=
| ErrDuplicateEmail
| ErrRecordNotFound
| ErrEditConflict
| Foreign (err : errors.error).

(** How a call ends: it returns, or it panics. *)
Inductive outcome (A : Type) :=
| Returns (a : A)
| Panics (msg : string).

Arguments Returns {A} a.
Arguments Panics {A} msg.

(** *** users *)

(** [plaintext] is a pointer and [hash] a slice: [None] is [nil]. *)
Record password := {
  plaintext : option string;
  hash : option (list byte)
}.

Record User := {
  ID : Z;
  CreatedAt : time.Time;
  Name : string;
  Email : string;
  Password : password;
  Activated : bool;
  Version : Z
}.

(** A slice as an argument: [nil] has no bytes. *)
Definition slice (b : option (list byte)) : list byte := default [] b.

Section Password.

Variable lib : bcrypt.Package.

(** [p.Set(ptPassword)]; [rnd] is the random source at the call. *)
Definition password_Set (rnd : bcrypt.Rand lib) (p : password) (ptPassword : string)
  : password * option bcrypt.error :=
  match bcrypt.GenerateFromPassword lib (String.list_byte_of_string ptPassword) 12 rnd with
  | inl err => (p, Some err)
  | inr hash => ({| plaintext := Some ptPassword; hash := Some hash |}, None)
  end.

(** [p.Matches(ptPassword)]. *)
Definition password_Matches (p : password) (ptPassword : string)
  : bool * option bcrypt.error :=
  match bcrypt.CompareHashAndPassword lib (slice (hash p))
          (String.list_byte_of_string ptPassword) with
  | Some err =>
      if bcrypt.is_mismatch err then (false, None) else (false, Some err)
  | None => (true, None)
  end.

(** What the package promises and the proofs below rely on. A digest it
    generated verifies the password it was generated from. *)
Definition generated_digests_verify : Prop :=
  forall pw cost rnd h,
    bcrypt.GenerateFromPassword lib pw cost rnd = inr h ->
    bcrypt.CompareHashAndPassword lib h pw = None.

(** The package fails, other than by a mismatch, on the stored digest alone:
    a digest it cannot read is refused whatever the candidate. *)
Definition failures_are_of_the_digest : Prop :=
  forall h c c' err,
    bcrypt.CompareHashAndPassword lib h c = Some err ->
    bcrypt.is_mismatch err = false ->
    bcrypt.CompareHashAndPassword lib h c' = Some err.

(** With some random source, every password of up to 72 bytes gets a digest,
    of at most [n] bytes (bcrypt's are 60 bytes long). *)
Definition digests_at_most (n : nat) : Prop :=
  exists rnd, forall pw, (length pw <= 72)%nat ->
    exists h, bcrypt.GenerateFromPassword lib pw 12 rnd = inr h /\ (length h <= n)%nat.

End Password.

Definition len (s : string) : Z := Z.of_nat (String.length s).

Definition nonempty (s : string) : bool := negb (String.eqb s EmptyString).

Section Validate.

(** [validator.EmailRX]: the pattern is not among the sources. *)
Variable EmailRX : validator.Regexp.

Definition ValidateEmail (v : validator.Validator) (email : string) : validator.Validator :=
  let v := validator.Check v (nonempty email) "email" "must be provided" in
  validator.Check v (validator.Matches email EmailRX) "email" "must be a valid email address".

Definition ValidatePasswordPlainText (v : validator.Validator) (password : string)
  : validator.Validator :=
  let v := validator.Check v (nonempty password) "password" "must be provided" in
  let v := validator.Check v (8 <=? len password) "password" "must be at least 8 bytes long" in
  validator.Check v (len password <=? 72) "password" "must not be more than 72 bytes long".

Definition ValidateUser (v : validator.Validator) (user : User) : outcome validator.Validator :=
  let v := validator.Check v (nonempty (Name user)) "name" "must be provided" in
  let v := validator.Check v (len (Name user) <=? 500) "name"
             "must not be more than 500 bytes long" in
  let v := ValidateEmail v (Email user) in
  let v := match plaintext (Password user) with
           | Some pt => ValidatePasswordPlainText v pt
           | None => v
           end in
  match hash (Password user) with
  | None => Panics "missing password hash for user"
  | Some _ => Returns v
  end.

End Validate.

(** *** The database *)

(** Modelled from the spec: the schema of the tables is not among the
    sources. The tables hold the columns the statements of the package name;
    the email of a user is unique (the constraint [users_email_key] the package
    tests for); the store assigns the id, the creation time and the initial
    version, 1, of a new user. *)

Record user_row := {
  row_created_at : time.Time;
  row_name : string;
  row_email : string;
  row_password_hash : option (list byte);
  row_activated : bool;
  row_version : Z
}.

Record token_row := {
  row_hash : list byte;
  row_user_id : Z;
  row_expiry : time.Time;
  row_scope : string
}.

Record database := {
  users : gmap Z user_row;
  users_id_seq : Z;
  tokens : list token_row;
  clock : time.Time
}.

(** The text of the driver's error for a second user with an email, as the
    package spells it. *)
Definition duplicate_key_text : string :=
  "pq: duplicate key value violates unique constraint "
    +:+ pq.dquote +:+ "users_email_key" +:+ pq.dquote.

(** The driver's error for a violation of [users_email_key]. *)
Definition users_email_key_violation : errors.error :=
  errors.DriverError
    {| pq.Code := "23505";
       pq.Message := "duplicate key value violates unique constraint "
                       +:+ pq.dquote +:+ "users_email_key" +:+ pq.dquote;
       pq.Constraint := "users_email_key" |}.

(** Some row other than [self] holds [email]. *)
Definition email_in_use (db : database) (email : string) (self : option Z) : bool :=
  bool_decide (map_Exists (fun id r => row_email r = email /\ Some id <> self) (users db)).

(** A call to the database: it fails with an error and the statement has no
    effect ([fault]: the deadline of the context passed, the connection broke,
    the server refused the statement), or the database executes the
    statement. *)
Definition query {A} (fault : option errors.error) (stmt : database -> database * (errors.error + A))
           (db : database) : database * (errors.error + A) :=
  match fault with
  | Some err => (db, inl err)
  | None => stmt db
  end.

(** [INSERT INTO users (name, email, password_hash, activated)
     VALUES ($1, $2, $3, $4) RETURNING id, created_at, version]. *)
Definition insert_user (name email : string) (password_hash : option (list byte))
           (activated : bool) (db : database)
  : database * (errors.error + (Z * time.Time * Z)) :=
  if email_in_use db email None then (db, inl users_email_key_violation)
  else
    let id := users_id_seq db in
    let row := {| row_created_at := clock db; row_name := name; row_email := email;
                  row_password_hash := password_hash; row_activated := activated;
                  row_version := 1 |} in
    ({| users := <[id := row]> (users db); users_id_seq := id + 1;
        tokens := tokens db; clock := clock db |},
     inr (id, clock db, 1)).

(** [UPDATE users SET name = $1, email = $2, password_hash = $3,
     activated = $4, version = version + 1
     WHERE id = $5 AND version = $6 RETURNING version]. *)
Definition update_user (name email : string) (password_hash : option (list byte))
           (activated : bool) (id version : Z) (db : database)
  : database * (errors.error + Z) :=
  match users db !! id with
  | Some r =>
      if bool_decide (row_version r = version) then
        if email_in_use db email (Some id) then (db, inl users_email_key_violation)
        else
          let row := {| row_created_at := row_created_at r; row_name := name;
                        row_email := email; row_password_hash := password_hash;
                        row_activated := activated; row_version := row_version r + 1 |} in
          ({| users := <[id := row]> (users db); users_id_seq := users_id_seq db;
              tokens := tokens db; clock := clock db |},
           inr (row_version r + 1))
      else (db, inl errors.ErrNoRows)
  | None => (db, inl errors.ErrNoRows)
  end.

(** [INSERT INTO tokens (hash, user_id, expiry, scope) VALUES ($1, $2, $3, $4)]. *)
Definition insert_token (hash : list byte) (user_id : Z) (expiry : time.Time)
           (scope : string) (db : database) : database * (errors.error + unit) :=
  let row := {| row_hash := hash; row_user_id := user_id; row_expiry := expiry;
                row_scope := scope |} in
  ({| users := users db; users_id_seq := users_id_seq db;
      tokens := tokens db ++ [row]; clock := clock db |}, inr tt).

(** [m.Insert(user)]. *)
Definition UserModel_Insert (fault : option errors.error) (db : database) (user : User)
  : outcome (database * User * option error) :=
  let '(db', res) :=
    query fault (insert_user (Name user) (Email user) (hash (Password user))
                             (Activated user)) db in
  match res with
  | inl err =>
      if String.eqb (errors.Error err) duplicate_key_text
      then Returns (db', user, Some ErrDuplicateEmail)
      else Returns (db', user, Some (Foreign err))
  | inr (id, created_at, version) =>
      Returns (db',
               {| ID := id; CreatedAt := created_at; Name := Name user;
                  Email := Email user; Password := Password user;
                  Activated := Activated user; Version := version |},
               None)
  end.

(** [m.Update(user)]. *)
Definition UserModel_Update (fault : option errors.error) (db : database) (user : User)
  : outcome (database * User * option error) :=
  let '(db', res) :=
    query fault (update_user (Name user) (Email user) (hash (Password user))
                             (Activated user) (ID user) (Version user)) db in
  match res with
  | inl err =>
      if String.eqb (errors.Error err) duplicate_key_text
      then Returns (db', user, Some ErrDuplicateEmail)
      else if errors.Is_ErrNoRows err
      then Returns (db', user, Some ErrEditConflict)
      else Returns (db', user, Some (Foreign err))
  | inr version =>
      Returns (db',
               {| ID := ID user; CreatedAt := CreatedAt user; Name := Name user;
                  Email := Email user; Password := Password user;
                  Activated := Activated user; Version := version |},
               None)
  end.

(** [SELECT id, created_at, name, email, password_hash, activated, version
     FROM users WHERE email = $1], read by [QueryRow]: the first row of the
    result, or [sql.ErrNoRows]. *)
Definition select_user_by_email (email : string) (db : database)
  : database * (errors.error + (Z * user_row)) :=
  match list_find (fun kv => row_email kv.2 = email) (map_to_list (users db)) with
  | Some (_, kv) => (db, inr kv)
  | None => (db, inl errors.ErrNoRows)
  end.

(** [m.GetByEmail(email)]: the user pointer and the error. *)
Definition UserModel_GetByEmail (fault : option errors.error) (db : database)
           (email : string) : option User * option error :=
  let '(_, res) := query fault (select_user_by_email email) db in
  match res with
  | inl err =>
      if errors.Is_ErrNoRows err
      then (None, Some ErrRecordNotFound)
      else (None, Some (Foreign err))
  | inr (id, r) =>
      (Some {| ID := id; CreatedAt := row_created_at r; Name := row_name r;
               Email := row_email r;
               Password := {| plaintext := None; hash := row_password_hash r |};
               Activated := row_activated r; Version := row_version r |},
       None)
  end.

(** The user struct as [Scan] fills it from a row. *)
Definition user_of_row (id : Z) (r : user_row) : User :=
  {| ID := id; CreatedAt := row_created_at r; Name := row_name r;
     Email := row_email r;
     Password := {| plaintext := None; hash := row_password_hash r |};
     Activated := row_activated r; Version := row_version r |}.

(** No two rows of [users] hold the same email: what [users_email_key]
    keeps. *)
Definition emails_unique (db : database) : Prop :=
  forall id1 id2 r1 r2,
    users db !! id1 = Some r1 -> users db !! id2 = Some r2 ->
    row_email r1 = row_email r2 -> id1 = id2.


(** *** tokens *)

Definition ScopeActivation : string := "activation".
Definition ScopeAuthentication : string := "authentication".

Record Token := {
  PlainText : string;
  Hash : list byte;
  UserID : Z;
  Expiry : time.Time;
  Scope : string
}.

(** [generateToken(userID, ttl, scope)]; [now] is the clock and [rnd] the
    random source at the call. The result is [(nil, err)] or [(token, nil)]. *)
Definition generateToken (now : time.Time) (rnd : rand.Reader)
           (userID : Z) (ttl : time.Duration) (scope : string) : error + Token :=
  let token := {| PlainText := EmptyString; Hash := []; UserID := userID;
                  Expiry := time.Add now ttl; Scope := scope |} in
  match rand.Read rnd 16 with
  | inl err => inl (Foreign err)
  | inr randomBytes =>
      let plain := base32.EncodeToString randomBytes in
      let hash := sha256.Sum256 (String.list_byte_of_string plain) in
      inr {| PlainText := plain; Hash := hash; UserID := UserID token;
             Expiry := Expiry token; Scope := Scope token |}
  end.

(** [ValidateTokenPlainText]. *)
Definition ValidateTokenPlainText (v : validator.Validator) (tokenPlainText : string)
  : validator.Validator :=
  let v := validator.Check v (nonempty tokenPlainText) "token" "must be provided" in
  validator.Check v (len tokenPlainText =? 26) "token" "must be 26 bytes long".

(** [m.Insert(token)] of [TokenModel]. *)
Definition TokenModel_Insert (fault : option errors.error) (db : database) (token : Token)
  : database * option error :=
  let '(db', res) :=
    query fault (insert_token (Hash token) (UserID token) (Expiry token) (Scope token)) db in
  match res with
  | inl err => (db', Some (Foreign err))
  | inr _ => (db', None)
  end.

(** [m.New(userID, ttl, scope)] of [TokenModel]: the token pointer and the
    error it returns, each of which can be [nil]. *)
Definition TokenModel_New (fault : option errors.error) (db : database)
           (now : time.Time) (rnd : rand.Reader)
           (userID : Z) (ttl : time.Duration) (scope : string)
  : database * option Token * option error :=
  match generateToken now rnd userID ttl scope with
  | inl err => (db, None, Some err)
  | inr token =>
      let '(db', err) := TokenModel_Insert fault db token in
      (db', Some token, err)
  end.

(** [DELETE FROM tokens WHERE scope = $1 AND user_id = $2]. *)
Definition delete_tokens (scope : string) (user_id : Z) (db : database)
  : database * (errors.error + unit) :=
  ({| users := users db; users_id_seq := users_id_seq db;
      tokens := filter (fun t => ~ (row_scope t = scope /\ row_user_id t = user_id))
                       (tokens db);
      clock := clock db |}, inr tt).

(** [m.DeleteAllForUser(scope, userID)]. *)
Definition TokenModel_DeleteAllForUser (fault : option errors.error) (db : database)
           (scope : string) (userID : Z) : database * option error :=
  let '(db', res) := query fault (delete_tokens scope userID) db in
  match res with
  | inl err => (db', Some (Foreign err))
  | inr _ => (db', None)
  end.

End data.

(** ** Counting byte strings

    All byte strings of a length, and all up to a length, to compare how many
    passwords and how many digests there are. *)

Module counting.

Definition all_bytes : list byte :=
  (fun k => default Byte.x00 (Byte.of_nat k)) <$> seq 0 256.

Fixpoint words (n : nat) : list (list byte) :=
  match n with
  | O => [[]]
  | S n' => w ← words n'; (fun b => b :: w) <$> all_bytes
  end.

Fixpoint upto (n : nat) : list (list byte) :=
  match n with
  | O => words 0
  | S n' => words (S n') ++ upto n'
  end.

End counting.

(** A package to run [Set] and [Matches] on. *)
Module bcrypt_example.

(** The package that keeps the password in clear behind the tag [$0$] and
    refuses a digest without the tag: of no use to hide a password, it shows
    that what is asked of a package above can be met. *)
Definition tag : list byte := [Byte.x24; Byte.x30; Byte.x24].

Definition plain : bcrypt.Package :=
  {| bcrypt.Rand := unit;
     bcrypt.GenerateFromPassword := fun pw _ _ => inr (tag ++ pw);
     bcrypt.CompareHashAndPassword := fun h pw =>
       if decide (take 3 h = tag) then
         if decide (drop 3 h = pw) then None
         else Some bcrypt.ErrMismatchedHashAndPassword
       else Some (bcrypt.Failure "digest without its tag") |}.

End bcrypt_example.

(** The values of a byte, to check a fact about bytes on all of them. *)
Module bytewise.

Definition byte_values : list Z := Z.of_nat <$> seq 0 256.

End bytewise.

(** Values to run the store on. *)
Module data_example.

Definition empty_db : data.database :=
  {| data.users := ∅; data.users_id_seq := 1; data.tokens := []; data.clock := 1700000000 |}.

(** A user as a caller would build it who forgot the password: no name, no
    usable email, no hash. *)
Definition nohash_user : data.User :=
  {| data.ID := 0; data.CreatedAt := 0; data.Name := EmptyString;
     data.Email := "not-an-email";
     data.Password := {| data.plaintext := None; data.hash := None |};
     data.Activated := false; data.Version := 0 |}.

Definition digest : list byte := String.list_byte_of_string "$2a$12$R9h/cIPz0gi.URNNX3kh2OPST9/PgBkqquzi.Ss7KIUgO2t0jWMUW".

Definition alice_row : data.user_row :=
  {| data.row_created_at := 1700000000; data.row_name := "Alice";
     data.row_email := "alice@example.com"; data.row_password_hash := Some digest;
     data.row_activated := true; data.row_version := 1 |}.

Definition bob_row : data.user_row :=
  {| data.row_created_at := 1700000001; data.row_name := "Bob";
     data.row_email := "bob@example.com"; data.row_password_hash := Some digest;
     data.row_activated := false; data.row_version := 3 |}.

Definition two_users : data.database :=
  {| data.users := <[2 := bob_row]> (<[1 := alice_row]> ∅); data.users_id_seq := 3;
     data.tokens := []; data.clock := 1700000002 |}.

(** Alice as loaded at version 1, then edited by her caller. *)
Definition alice : data.User :=
  {| data.ID := 1; data.CreatedAt := 1700000000; data.Name := "Alice";
     data.Email := "alice@example.com";
     data.Password := {| data.plaintext := None; data.hash := Some digest |};
     data.Activated := true; data.Version := 1 |}.

Definition alice_renamed : data.User :=
  {| data.ID := 1; data.CreatedAt := 1700000000; data.Name := "Alice Liddell";
     data.Email := "alice@example.com";
     data.Password := {| data.plaintext := None; data.hash := Some digest |};
     data.Activated := true; data.Version := 1 |}.

Definition alice_with_bobs_email : data.User :=
  {| data.ID := 1; data.CreatedAt := 1700000000; data.Name := "Alice";
     data.Email := "bob@example.com";
     data.Password := {| data.plaintext := None; data.hash := Some digest |};
     data.Activated := true; data.Version := 1 |}.

(** Alice with her name left out. *)
Definition alice_unnamed : data.User :=
  {| data.ID := 1; data.CreatedAt := 1700000000; data.Name := EmptyString;
     data.Email := "alice@example.com";
     data.Password := {| data.plaintext := None; data.hash := Some digest |};
     data.Activated := true; data.Version := 1 |}.

(** A pattern for emails, for want of [EmailRX]: something, an at sign,
    something. *)
Fixpoint has_at (s : string) : bool :=
  match s with
  | EmptyString => false
  | String c rest => Ascii.eqb c "@" || has_at rest
  end.

Definition email_shape (s : string) : bool :=
  match s with
  | EmptyString => false
  | String c rest => negb (Ascii.eqb c "@") && has_at rest
  end.

(** The driver's error for [users_email_key] from a server that does not
    speak English: same code, same constraint, another text. *)
Definition violation_in_spanish : errors.error :=
  errors.DriverError
    {| pq.Code := "23505";
       pq.Message := "llave duplicada viola restriccion de unicidad users_email_key";
       pq.Constraint := "users_email_key" |}.

Definition connection_refused : errors.error :=
  errors.OtherError "dial tcp 127.0.0.1:5432: connect: connection refused".

End data_example.

(** More values to run the code on. *)
Module more_examples.

(** An SMTP server that refuses the first connection and takes the second. *)
Definition flaky : mailer.world string :=
  {| mailer.network := fun k => match k with
                                | O => Some "dial tcp: i/o timeout"%string
                                | S _ => None
                                end;
     mailer.log := [] |}.

(** Carol registers: her password was set, nothing else is known yet. *)
Definition carol : data.User :=
  {| data.ID := 0; data.CreatedAt := 0; data.Name := "Carol";
     data.Email := "carol@example.com";
     data.Password := {| data.plaintext := Some "pa55word"%string;
                         data.hash := Some data_example.digest |};
     data.Activated := false; data.Version := 0 |}.

(** A random source that gives the bytes 0, 1, 2, ... *)
Definition counting_bytes : nat -> byte := fun i => default Byte.x00 (Byte.of_nat i).

End more_examples.

(** * Properties *)

(** ** Mailer.Send *)

Section SendFacts.

Context {error Template Data : Type}.
Variable ParseFS : string -> error + Template.
Variable ExecuteTemplate : Template -> string -> Data -> error + string.

Import mailer.

#[local] Abbreviation Send := (mailer.Send ParseFS ExecuteTemplate).
#[local] Abbreviation renders := (mailer.renders ParseFS ExecuteTemplate).
#[local] Abbreviation render_fails_with := (mailer.render_fails_with ParseFS ExecuteTemplate).
#[local] Abbreviation backoff := (500 * time.Millisecond).

Lemma dials_app (l1 l2 : list (event error)) : dials (l1 ++ l2) = (dials l1 + dials l2)%nat.
Proof. unfold dials. induction l1 as [|[m r|d] l1 IH]; simpl; lia. Qed.

Lemma slept_app (l1 l2 : list (event error)) : slept (l1 ++ l2) = slept l1 + slept l2.
Proof. unfold slept. induction l1 as [|[m r|d] l1 IH]; simpl; lia. Qed.

Lemma dials_failed_rounds net msg k n : dials (@failed_rounds error net msg k n) = n.
Proof.
  revert k. induction n as [|n IH]; intros k; [done|].
  simpl. f_equal. apply IH.
Qed.

Lemma slept_failed_rounds net msg k n :
  slept (@failed_rounds error net msg k n) = Z.of_nat n * backoff.
Proof.
  revert k. induction n as [|n IH]; intros k; [done|].
  cbn [failed_rounds slept foldr]. fold (slept (failed_rounds net msg (S k) n)).
  rewrite IH. lia.
Qed.

(** One turn of the retry loop: an attempt that fails is followed by the
    pause and the next turn, an attempt that succeeds ends the loop. *)
Lemma attempts_fail n d msg (w : world error) e :
  network w (dials (log w)) = Some e ->
  attempts (S n) d msg w =
    attempts n d msg
      {| network := network w; log := log w ++ [EvDial msg (Some e); EvSleep backoff] |}.
Proof.
  intros He. cbn [attempts]. unfold mbind, M_bind, DialAndSend, Sleep, emit.
  rewrite He. cbn [network log]. by rewrite <- app_assoc.
Qed.

Lemma attempts_success n d msg (w : world error) :
  network w (dials (log w)) = None ->
  attempts (S n) d msg w =
    (None, {| network := network w; log := log w ++ [EvDial msg None] |}).
Proof.
  intros He. cbn [attempts]. unfold mbind, M_bind, DialAndSend. by rewrite He.
Qed.

(** After a failed round the attempts still to come are those of the world
    before it, one further on. *)
Ltac next_round Hfail :=
  cbn [network log]; rewrite dials_app; cbn [dials foldr];
  intros; rewrite <- Nat.add_assoc; apply Hfail; lia.

(** The retry loop when the next [n] attempts all fail. *)
Lemma attempts_all_fail n d msg (w : world error) :
  (forall k, (k < n)%nat -> is_Some (network w (dials (log w) + k))) ->
  attempts n d msg w =
    (None, {| network := network w;
              log := log w ++ failed_rounds (network w) msg (dials (log w)) n |}).
Proof.
  revert w. induction n as [|n IH]; intros w Hfail.
  - simpl. destruct w; simpl. by rewrite app_nil_r.
  - destruct (Hfail O ltac:(lia)) as [e He]. rewrite Nat.add_0_r in He.
    rewrite (attempts_fail _ _ _ _ e He), IH; [|next_round Hfail].
    cbn [network log failed_rounds]. rewrite dials_app, He, <- app_assoc.
    cbn [dials foldr app]. by rewrite Nat.add_1_r.
Qed.

(** The retry loop when the next [j] attempts fail and the one after them
    succeeds: it stops right there. *)
Lemma attempts_first_success n j d msg (w : world error) :
  (j < n)%nat ->
  (forall k, (k < j)%nat -> is_Some (network w (dials (log w) + k))) ->
  network w (dials (log w) + j) = None ->
  attempts n d msg w =
    (None, {| network := network w;
              log := log w ++ failed_rounds (network w) msg (dials (log w)) j
                           ++ [EvDial msg None] |}).
Proof.
  revert j w. induction n as [|n IH]; intros j w Hj Hfail Hok; [lia|].
  destruct j as [|j].
  - rewrite Nat.add_0_r in Hok. by rewrite attempts_success.
  - destruct (Hfail O ltac:(lia)) as [e He]. rewrite Nat.add_0_r in He.
    rewrite (attempts_fail _ _ _ _ e He), (IH j); [|lia|next_round Hfail|].
    + cbn [network log failed_rounds]. rewrite dials_app, He, <- !app_assoc.
      cbn [dials foldr app]. by rewrite Nat.add_1_r.
    + cbn [network log]. rewrite dials_app. cbn [dials foldr].
      by rewrite <- Nat.add_assoc.
Qed.

(** The retry loop never makes more than [n] attempts, whatever the network does. *)
Lemma attempts_bounded n d msg (w : world error) :
  (dials (log (attempts n d msg w).2) <= dials (log w) + n)%nat.
Proof.
  revert w. induction n as [|n IH]; intros w; [simpl; lia|].
  destruct (network w (dials (log w))) as [e|] eqn:He.
  - rewrite (attempts_fail _ _ _ _ e He). etrans; [apply IH|].
    cbn [log]. rewrite dials_app. simpl. lia.
  - rewrite attempts_success by done. cbn [snd log]. rewrite dials_app. simpl. lia.
Qed.

(** Once the template has rendered, [Send] is the retry loop on the message. *)
Lemma Send_rendered m recipient templateFile data subject plainBody htmlBody w :
  renders templateFile data subject plainBody htmlBody ->
  Send m recipient templateFile data w =
    attempts 3 (dialer m)
      {| To := recipient; From := sender m; Subject := subject;
         Body := ("text/plain", plainBody)%string;
         Alternative := ("text/html", htmlBody)%string |} w.
Proof.
  intros (tmpl & Hp & Hs & Hb & Hh). unfold mailer.Send.
  by rewrite Hp, Hs, Hb, Hh.
Qed.

(** C1. When the template renders and the three delivery attempts of a call
    all fail, [Send] has made exactly three attempts and returns [nil]: the
    last delivery error is dropped. *)
Theorem Send_all_attempts_fail_returns_nil
    m recipient templateFile data subject plainBody htmlBody (w : world error) :
  renders templateFile data subject plainBody htmlBody ->
  (forall k, (k < 3)%nat -> is_Some (network w (dials (log w) + k))) ->
  (Send m recipient templateFile data w).1 = None /\
  dials (log (Send m recipient templateFile data w).2) = (dials (log w) + 3)%nat.
Proof.
  intros Hr Hfail. rewrite (Send_rendered _ _ _ _ _ _ _ _ Hr).
  rewrite attempts_all_fail by done. cbn [fst snd log]. split; [done|].
  by rewrite dials_app, dials_failed_rounds.
Qed.

(** C3. When the template does not parse, or one of the fragments subject,
    plainBody, htmlBody does not execute, [Send] returns the error at which
    rendering stopped and leaves the world as it was: no delivery attempt is
    made and nothing is retried. *)
Theorem Send_template_error_no_delivery
    m recipient templateFile data err0 (w : world error) :
  render_fails_with templateFile data err0 ->
  exists err,
    render_fails_with templateFile data err /\
    Send m recipient templateFile data w = (Some err, w).
Proof.
  unfold mailer.render_fails_with, mailer.Send.
  intros [Hp | (tmpl & name & Hp & Hin & Hx)].
  - exists err0. rewrite Hp. split; [by left | done].
  - rewrite Hp.
    destruct (ExecuteTemplate tmpl "subject" data) as [e1|subject] eqn:H1.
    { exists e1. split; [|done]. right. exists tmpl, "subject"%string.
      split_and!; [done|by repeat constructor|done]. }
    destruct (ExecuteTemplate tmpl "plainBody" data) as [e2|plainBody] eqn:H2.
    { exists e2. split; [|done]. right. exists tmpl, "plainBody"%string.
      split_and!; [done|by repeat constructor|done]. }
    destruct (ExecuteTemplate tmpl "htmlBody" data) as [e3|htmlBody] eqn:H3.
    { exists e3. split; [|done]. right. exists tmpl, "htmlBody"%string.
      split_and!; [done|by repeat constructor|done]. }
    exfalso. set_unfold in Hin. destruct Hin as [->|[->|[->|[]]]]; congruence.
Qed.

(** [Send] makes at most three delivery attempts, whatever happens. *)
Lemma Send_at_most_three_attempts m recipient templateFile data (w : world error) :
  (dials (log (Send m recipient templateFile data w).2) <= dials (log w) + 3)%nat.
Proof.
  unfold mailer.Send.
  destruct (ParseFS _) as [?|tmpl]; [simpl; lia|].
  destruct (ExecuteTemplate tmpl "subject" data); [simpl; lia|].
  destruct (ExecuteTemplate tmpl "plainBody" data); [simpl; lia|].
  destruct (ExecuteTemplate tmpl "htmlBody" data); [simpl; lia|].
  apply attempts_bounded.
Qed.

(** When attempt number [j + 1] is the first to succeed, [Send] returns [nil]
    after exactly [j + 1] attempts and [j] pauses of 500ms. *)
Lemma Send_stops_at_first_success
    m recipient templateFile data subject plainBody htmlBody j (w : world error) :
  renders templateFile data subject plainBody htmlBody ->
  (j < 3)%nat ->
  (forall k, (k < j)%nat -> is_Some (network w (dials (log w) + k))) ->
  network w (dials (log w) + j) = None ->
  (Send m recipient templateFile data w).1 = None /\
  dials (log (Send m recipient templateFile data w).2) = (dials (log w) + (j + 1))%nat /\
  slept (log (Send m recipient templateFile data w).2) = slept (log w) + Z.of_nat j * backoff.
Proof.
  intros Hr Hj Hfail Hok. rewrite (Send_rendered _ _ _ _ _ _ _ _ Hr).
  rewrite (attempts_first_success 3 j) by done. cbn [fst snd log].
  split; [done|]. rewrite !dials_app, !slept_app, dials_failed_rounds, slept_failed_rounds.
  simpl. split; lia.
Qed.

(** When every attempt fails, [Send] pauses after each of the three attempts,
    the last one included: the log ends with a pause and 1500ms are slept. *)
Lemma Send_all_attempts_fail_backoff
    m recipient templateFile data subject plainBody htmlBody (w : world error) :
  renders templateFile data subject plainBody htmlBody ->
  (forall k, (k < 3)%nat -> is_Some (network w (dials (log w) + k))) ->
  slept (log (Send m recipient templateFile data w).2)
    = slept (log w) + 1500 * time.Millisecond /\
  last (log (Send m recipient templateFile data w).2) = Some (EvSleep backoff).
Proof.
  intros Hr Hfail. rewrite (Send_rendered _ _ _ _ _ _ _ _ Hr).
  rewrite attempts_all_fail by done. cbn [fst snd log]. split.
  - rewrite slept_app, slept_failed_rounds. unfold time.Millisecond, time.Nanosecond. lia.
  - by rewrite last_app.
Qed.

End SendFacts.

(** ** crypto/sha256 and encoding/base32 on known values *)

Example sha256_constants :
  sha256.at_ sha256._K 0 = 0x428a2f98 /\ sha256.at_ sha256._K 63 = 0xc67178f2 /\
  length sha256._K = 64%nat /\
  sha256.va sha256.h0 = 0x6a09e667 /\ sha256.vh sha256.h0 = 0x5be0cd19.
Proof. split_and!; reflexivity. Qed.

Example Sum256_abc :
  sha256.Sum256 (String.list_byte_of_string "abc") =
  sha256.to_byte <$>
    [ 0xba; 0x78; 0x16; 0xbf; 0x8f; 0x01; 0xcf; 0xea; 0x41; 0x41; 0x40; 0xde;
      0x5d; 0xae; 0x22; 0x23; 0xb0; 0x03; 0x61; 0xa3; 0x96; 0x17; 0x7a; 0x9c;
      0xb4; 0x10; 0xff; 0x61; 0xf2; 0x00; 0x15; 0xad ].
Proof. vm_compute. reflexivity. Qed.

(** A message of 56 bytes, which takes two chunks. *)
Example Sum256_two_chunks :
  sha256.Sum256
    (String.list_byte_of_string "abcdbcdecdefdefgefghfghighijhijkijkljklmklmnlmnomnopnopq") =
  sha256.to_byte <$>
    [ 0x24; 0x8d; 0x6a; 0x61; 0xd2; 0x06; 0x38; 0xb8; 0xe5; 0xc0; 0x26; 0x93;
      0x0c; 0x3e; 0x60; 0x39; 0xa3; 0x3c; 0xe4; 0x59; 0x64; 0xff; 0x21; 0x67;
      0xf6; 0xec; 0xed; 0xd4; 0x19; 0xdb; 0x06; 0xc1 ].
Proof. vm_compute. reflexivity. Qed.

Example EncodeToString_foobar :
  base32.EncodeToString <$>
    (String.list_byte_of_string <$> ["f"; "fo"; "foo"; "foob"; "fooba"; "foobar"]%string)
  = ["MY"; "MZXQ"; "MZXW6"; "MZXW6YQ"; "MZXW6YTB"; "MZXW6YTBOI"]%string.
Proof. vm_compute. reflexivity. Qed.

Example EncodeToString_16_bytes :
  base32.EncodeToString (sha256.to_byte <$> (Z.of_nat <$> seq 0 16))
  = "AAAQEAYEAUDAOCAJBIFQYDIOB4"%string.
Proof. vm_compute. reflexivity. Qed.

(** ** Tokens *)

Lemma length_string_of_list_ascii (l : list ascii) :
  String.length (String.string_of_list_ascii l) = length l.
Proof. induction l as [|c l IH]; simpl; congruence. Qed.

Lemma length_list_byte_of_string (s : string) :
  length (String.list_byte_of_string s) = String.length s.
Proof.
  unfold String.list_byte_of_string. rewrite length_map.
  induction s as [|c s IH]; simpl; congruence.
Qed.

(** Every character [Encode] writes is one of the 32 of the alphabet. *)
Lemma encode_in_alphabet (v : Z) :
  base32.encode v ∈ String.list_ascii_of_string base32.encodeStd.
Proof.
  unfold base32.encode.
  assert (0 <= Z.land v 31 < 32) as Hv.
  { change 31 with (Z.ones 5). rewrite Z.land_ones by lia. apply Z.mod_pos_bound. lia. }
  assert (Z.to_nat (Z.land v 31) < 32)%nat as Hn by lia.
  set (n := Z.to_nat (Z.land v 31)) in *. clearbody n. clear Hv.
  do 32 (destruct n as [|n]; [vm_compute; repeat constructor|]).
  lia.
Qed.

Lemma chars_in_alphabet s0 s1 s2 s3 s4 c :
  c ∈ base32.chars s0 s1 s2 s3 s4 ->
  c ∈ String.list_ascii_of_string base32.encodeStd.
Proof.
  unfold base32.chars. intros (v & -> & _)%list_elem_of_fmap. apply encode_in_alphabet.
Qed.

Lemma Encode_16_bytes (stream : nat -> byte) :
  length (base32.Encode (stream <$> seq 0 16)) = 26%nat /\
  forall c, c ∈ base32.Encode (stream <$> seq 0 16) ->
            c ∈ String.list_ascii_of_string base32.encodeStd.
Proof.
  cbn [seq fmap list_fmap base32.Encode]. split.
  - rewrite !length_app, length_take. unfold base32.chars. rewrite !length_fmap. reflexivity.
  - intros c. rewrite !elem_of_app, elem_of_take.
    intros [H|[H|[H|(i & H & _)]]]; try (by eapply chars_in_alphabet).
    eapply chars_in_alphabet, list_elem_of_lookup_2, H.
Qed.

Lemma length_Sum256 (data : list byte) : length (sha256.Sum256 data) = 32%nat.
Proof. unfold sha256.Sum256. by rewrite !length_app. Qed.

(** What [generateToken] returns when the random source gives its 16 bytes. *)
Lemma generateToken_ok now (stream : nat -> byte) userID ttl scope :
  exists token,
    data.generateToken now (inr stream) userID ttl scope = inr token /\
    String.length (data.PlainText token) = 26%nat /\
    (forall c, c ∈ String.list_ascii_of_string (data.PlainText token) ->
               c ∈ String.list_ascii_of_string base32.encodeStd) /\
    data.Hash token = sha256.Sum256 (String.list_byte_of_string (data.PlainText token)) /\
    length (data.Hash token) = 32%nat /\
    data.Expiry token = now + ttl /\
    data.UserID token = userID /\
    data.Scope token = scope.
Proof.
  eexists. split; [reflexivity|]. cbn [data.PlainText data.Hash data.Expiry data.UserID data.Scope].
  destruct (Encode_16_bytes stream) as [Hlen Hin].
  unfold base32.EncodeToString.
  rewrite length_string_of_list_ascii, String.list_ascii_of_string_of_list_ascii.
  split_and!; try done.
Qed.

(** C9. Every token issued under a random source that gives its 16 bytes
    and a store that accepts the row has a plaintext of exactly 26 characters
    of the base-32 alphabet, a hash that is the SHA-256 digest (32 bytes) of
    that plaintext, and an expiry of the issuance time plus the ttl; the row
    stored carries that hash, owner, expiry and scope. *)
Theorem TokenModel_New_issues_well_formed_token
    db now (stream : nat -> byte) userID ttl scope :
  exists db' token,
    data.TokenModel_New None db now (inr stream) userID ttl scope = (db', Some token, None) /\
    String.length (data.PlainText token) = 26%nat /\
    (forall c, c ∈ String.list_ascii_of_string (data.PlainText token) ->
               c ∈ String.list_ascii_of_string base32.encodeStd) /\
    data.Hash token = sha256.Sum256 (String.list_byte_of_string (data.PlainText token)) /\
    length (data.Hash token) = 32%nat /\
    data.Expiry token = now + ttl /\
    data.tokens db' = data.tokens db ++
      [ {| data.row_hash := data.Hash token; data.row_user_id := userID;
           data.row_expiry := now + ttl; data.row_scope := scope |} ].
Proof.
  destruct (generateToken_ok now stream userID ttl scope)
    as (token & Hgen & Hlen & Halpha & Hhash & Hbits & Hexp & Hid & Hscope).
  unfold data.TokenModel_New. rewrite Hgen.
  eexists _, token. split; [reflexivity|].
  split_and!; try done. cbn. by rewrite Hexp, Hid, Hscope.
Qed.

(** C10. When the token is generated and the insert then fails with [err],
    [New] returns the generated token, plaintext and hash filled in, together
    with the error, and nothing was stored. *)
Theorem TokenModel_New_returns_token_with_insert_error
    (err : errors.error) db now (stream : nat -> byte) userID ttl scope :
  exists token,
    data.generateToken now (inr stream) userID ttl scope = inr token /\
    data.TokenModel_New (Some err) db now (inr stream) userID ttl scope
      = (db, Some token, Some (data.Foreign err)) /\
    String.length (data.PlainText token) = 26%nat /\
    length (data.Hash token) = 32%nat.
Proof.
  destruct (generateToken_ok now stream userID ttl scope)
    as (token & Hgen & Hlen & _ & _ & Hbits & _).
  exists token. unfold data.TokenModel_New. rewrite Hgen. done.
Qed.

(** When the random source fails, no token is generated and nothing is stored. *)
Lemma TokenModel_New_random_source_fails fault db now (err : errors.error) userID ttl scope :
  data.TokenModel_New fault db now (inl err) userID ttl scope
    = (db, None, Some (data.Foreign err)).
Proof. reflexivity. Qed.

(** ** Passwords *)

Section PasswordFacts.

Variable lib : bcrypt.Package.

#[local] Abbreviation Compare := (bcrypt.CompareHashAndPassword lib).
#[local] Abbreviation Matches := (data.password_Matches lib).
#[local] Abbreviation bytes := String.list_byte_of_string.

(** [Matches] reads the stored hash only. *)
Lemma password_Matches_hash_only p q candidate :
  data.hash p = data.hash q -> Matches p candidate = Matches q candidate.
Proof. unfold data.password_Matches. by intros ->. Qed.

(** [Matches] by what the comparison of the package says. *)
Lemma password_Matches_cases p candidate :
  (Compare (data.slice (data.hash p)) (bytes candidate) = None ->
   Matches p candidate = (true, None)) /\
  (forall err, Compare (data.slice (data.hash p)) (bytes candidate) = Some err ->
               bcrypt.is_mismatch err = true -> Matches p candidate = (false, None)) /\
  (forall err, Compare (data.slice (data.hash p)) (bytes candidate) = Some err ->
               bcrypt.is_mismatch err = false -> Matches p candidate = (false, Some err)).
Proof.
  unfold data.password_Matches. split_and!.
  - by intros ->.
  - by intros err -> ->.
  - by intros err -> ->.
Qed.

(** An error of [Matches] is a failure of the package other than a mismatch. *)
Lemma password_Matches_error p candidate err :
  (Matches p candidate).2 = Some err ->
  (Matches p candidate).1 = false /\
  Compare (data.slice (data.hash p)) (bytes candidate) = Some err /\
  bcrypt.is_mismatch err = false.
Proof.
  unfold data.password_Matches.
  destruct (Compare _ _) as [[|text]|]; simpl; intros [= <-] || intros [=]; done.
Qed.

(** C5. A candidate that does not match the stored digest gives exactly
    [(false, nil)]. When [Matches] returns an error, the answer is [false] and
    the error is the failure the package reported, which is never the one that
    says the password is wrong; and when the package fails on the stored
    digest alone, as it does on a digest it cannot read, that error is returned
    for every candidate, so it tells nothing about the password. *)
Theorem password_Matches_mismatch_is_not_an_error p candidate :
  (Compare (data.slice (data.hash p)) (bytes candidate)
     = Some bcrypt.ErrMismatchedHashAndPassword ->
   Matches p candidate = (false, None)) /\
  (forall err, (Matches p candidate).2 = Some err ->
     (Matches p candidate).1 = false /\
     Compare (data.slice (data.hash p)) (bytes candidate) = Some err /\
     err <> bcrypt.ErrMismatchedHashAndPassword) /\
  (data.failures_are_of_the_digest lib ->
   forall err, (Matches p candidate).2 = Some err ->
     forall candidate', Matches p candidate' = (false, Some err)).
Proof.
  split_and!.
  - unfold data.password_Matches. by intros ->.
  - intros err Herr. destruct (password_Matches_error p candidate err Herr) as (? & ? & ?).
    split_and!; [done|done|]. by intros ->.
  - intros Hlib err Herr candidate'.
    destruct (password_Matches_error p candidate err Herr) as (_ & Hc & Hm).
    apply password_Matches_cases; [|done]. by eapply Hlib.
Qed.

End PasswordFacts.

(** ** Validation and the user store *)

Lemma dom_Check v ok key message :
  dom (validator.Errors (validator.Check v ok key message)) =
  if ok then dom (validator.Errors v) else {[key]} ∪ dom (validator.Errors v).
Proof.
  unfold validator.Check, validator.AddError. destruct ok; [done|].
  destruct (validator.Errors v !! key) as [m|] eqn:Hk; simpl.
  - apply (elem_of_dom_2 (D := gset string)) in Hk. set_solver.
  - by rewrite dom_insert_L.
Qed.

Lemma nonempty_false s : data.nonempty s = false <-> s = EmptyString.
Proof.
  unfold data.nonempty. rewrite negb_false_iff. apply String.eqb_eq.
Qed.

Section ValidateFacts.

Variable EmailRX : validator.Regexp.

(** The fields [ValidateUser] has a message for, when it returns. *)
Lemma ValidateUser_returns v user h :
  data.hash (data.Password user) = Some h ->
  exists v',
    data.ValidateUser EmailRX v user = data.Returns v' /\
    ("name" ∈ dom (validator.Errors v') <->
       "name" ∈ dom (validator.Errors v) \/
       data.Name user = EmptyString \/ 500 < data.len (data.Name user)) /\
    ("email" ∈ dom (validator.Errors v') <->
       "email" ∈ dom (validator.Errors v) \/
       data.Email user = EmptyString \/ EmailRX (data.Email user) = false).
Proof.
  intros Hh. unfold data.ValidateUser. rewrite Hh. eexists. split; [reflexivity|].
  assert (forall w pt key, key <> "password"%string ->
            key ∈ dom (validator.Errors (data.ValidatePasswordPlainText w pt)) <->
            key ∈ dom (validator.Errors w)) as Hpw.
  { intros w pt key Hkey. unfold data.ValidatePasswordPlainText. rewrite !dom_Check.
    repeat case_match; set_solver. }
  assert (forall key, key <> "password"%string -> forall w,
            key ∈ dom (validator.Errors
                    (match data.plaintext (data.Password user) with
                     | Some pt => data.ValidatePasswordPlainText w pt
                     | None => w
                     end)) <-> key ∈ dom (validator.Errors w)) as Hopt.
  { intros key Hkey w. destruct (data.plaintext _); [by apply Hpw|done]. }
  rewrite !Hopt by done. unfold data.ValidateEmail, validator.Matches.
  rewrite !dom_Check.
  pose proof (nonempty_false (data.Name user)) as Hn.
  pose proof (nonempty_false (data.Email user)) as He.
  pose proof (Z.leb_spec0 (data.len (data.Name user)) 500) as Hl.
  destruct (data.nonempty (data.Name user)), (data.nonempty (data.Email user)),
           (EmailRX (data.Email user)), Hl; set_solver by (intuition (lia || congruence)).
Qed.

End ValidateFacts.

Import data_example.

Lemma ErrNoRows_is_not_the_duplicate_key_text :
  String.eqb (errors.Error errors.ErrNoRows) data.duplicate_key_text = false.
Proof. reflexivity. Qed.

Lemma violation_has_the_duplicate_key_text :
  String.eqb (errors.Error data.users_email_key_violation) data.duplicate_key_text = true.
Proof. reflexivity. Qed.

(** [Insert] neither validates nor panics: for every user it runs the
    statement and returns what came of it. *)
Lemma UserModel_Insert_returns fault db user :
  exists r, data.UserModel_Insert fault db user = data.Returns r.
Proof.
  unfold data.UserModel_Insert.
  destruct (data.query _ _ _) as [db' [err|[[id created] version]]]; [|by eexists].
  destruct (String.eqb _ _); by eexists.
Qed.

(** C6, as the code has it: [ValidateUser] panics for every user whose
    password hash is absent, and otherwise returns with a message under "name"
    exactly when the name is empty or longer than 500 bytes (or had one
    already), and under "email" exactly when the email is empty or not of the
    shape [EmailRX] (or had one already); [Insert] itself checks none of this
    and panics for no user. *)
Theorem ValidateUser_panics_without_hash_and_Insert_never
    (EmailRX : validator.Regexp) v user :
  (data.hash (data.Password user) = None ->
   data.ValidateUser EmailRX v user = data.Panics "missing password hash for user") /\
  (forall h, data.hash (data.Password user) = Some h ->
   exists v',
     data.ValidateUser EmailRX v user = data.Returns v' /\
     ("name" ∈ dom (validator.Errors v') <->
        "name" ∈ dom (validator.Errors v) \/
        data.Name user = EmptyString \/ 500 < data.len (data.Name user)) /\
     ("email" ∈ dom (validator.Errors v') <->
        "email" ∈ dom (validator.Errors v) \/
        data.Email user = EmptyString \/ EmailRX (data.Email user) = false)) /\
  (forall fault db, exists r, data.UserModel_Insert fault db user = data.Returns r).
Proof.
  split_and!.
  - intros Hh. unfold data.ValidateUser. by rewrite Hh.
  - intros h Hh. by eapply ValidateUser_returns.
  - intros fault db. apply UserModel_Insert_returns.
Qed.

(** C6, as the specification words it, fails on [Insert]: a user without a password hash (and
    without a name or a usable email) is inserted by a call that returns
    without a panic. *)
Lemma UserModel_Insert_without_hash_returns :
  data.hash (data.Password nohash_user) = None /\
  data.Name nohash_user = EmptyString /\
  exists r, data.UserModel_Insert None empty_db nohash_user = data.Returns r.
Proof. split_and!; [done|done|]. eexists. vm_compute. reflexivity. Qed.

(** C7, as the code has it: For a record that exists, when the statement
    reaches the database: with a stale version [Update] returns
    [ErrEditConflict] and changes nothing; with the current version and an
    email no other record holds it returns [nil], and the version of the row
    and of the caller's struct is the old one plus 1; with the current version
    and an email another record holds it returns [ErrDuplicateEmail] and
    changes nothing. *)
Theorem UserModel_Update_checks_version db user r :
  data.users db !! data.ID user = Some r ->
  (data.row_version r <> data.Version user ->
   data.UserModel_Update None db user = data.Returns (db, user, Some data.ErrEditConflict)) /\
  (data.row_version r = data.Version user ->
   data.email_in_use db (data.Email user) (Some (data.ID user)) = false ->
   exists db' user',
     data.UserModel_Update None db user = data.Returns (db', user', None) /\
     data.Version user' = data.Version user + 1 /\
     data.row_version <$> data.users db' !! data.ID user = Some (data.Version user + 1) /\
     forall id, id <> data.ID user -> data.users db' !! id = data.users db !! id) /\
  (data.row_version r = data.Version user ->
   data.email_in_use db (data.Email user) (Some (data.ID user)) = true ->
   data.UserModel_Update None db user = data.Returns (db, user, Some data.ErrDuplicateEmail)).
Proof.
  intros Hr. unfold data.UserModel_Update, data.query, data.update_user. rewrite Hr.
  split_and!.
  - intros Hv. by rewrite bool_decide_eq_false_2.
  - intros Hv Hfree. rewrite bool_decide_eq_true_2, Hfree by done.
    eexists _, _. split; [reflexivity|]. cbn. rewrite Hv. split_and!; [done| |].
    + by rewrite lookup_insert_eq.
    + intros id Hid. by rewrite lookup_insert_ne.
  - intros Hv Hused. by rewrite bool_decide_eq_true_2, Hused.
Qed.

(** C7, as the specification words it, fails: Alice's version is the current one, yet the
    update to Bob's email does not succeed, and her version stays 1. *)
Lemma UserModel_Update_current_version_duplicate_email :
  data.row_version <$> data.users two_users !! data.ID alice_with_bobs_email
    = Some (data.Version alice_with_bobs_email) /\
  data.UserModel_Update None two_users alice_with_bobs_email
    = data.Returns (two_users, alice_with_bobs_email, Some data.ErrDuplicateEmail).
Proof. split; vm_compute; reflexivity. Qed.

(** A record that is not there is an edit conflict as well. *)
Lemma UserModel_Update_missing_record db user :
  data.users db !! data.ID user = None ->
  data.UserModel_Update None db user = data.Returns (db, user, Some data.ErrEditConflict).
Proof.
  intros Hr. unfold data.UserModel_Update, data.query, data.update_user. by rewrite Hr.
Qed.

(** The end-to-end run of the version check: an update at version 1 gives
    version 2, and the same update again, still at version 1, conflicts. *)
Example UserModel_Update_twice :
  exists db' user',
    data.UserModel_Update None two_users alice_renamed = data.Returns (db', user', None) /\
    data.Version user' = 2 /\
    data.UserModel_Update None db' alice_renamed
      = data.Returns (db', alice_renamed, Some data.ErrEditConflict).
Proof. eexists _, _. split_and!; vm_compute; reflexivity. Qed.

(** C8, as the code has it: Whatever error the database call fails with:
    when its text is the duplicate-key text of [users_email_key], [Insert] and
    [Update] return [ErrDuplicateEmail]; when it is any other text, they
    return the error itself, as it came from the driver, except that [Update]
    turns [errors.ErrNoRows] into [ErrEditConflict]. No field of the error other
    than its text is read. *)
Theorem duplicate_email_is_detected_by_error_text (err : errors.error) db user :
  (errors.Error err = data.duplicate_key_text ->
   data.UserModel_Insert (Some err) db user
     = data.Returns (db, user, Some data.ErrDuplicateEmail) /\
   data.UserModel_Update (Some err) db user
     = data.Returns (db, user, Some data.ErrDuplicateEmail)) /\
  (errors.Error err <> data.duplicate_key_text ->
   data.UserModel_Insert (Some err) db user
     = data.Returns (db, user, Some (data.Foreign err)) /\
   data.UserModel_Update (Some err) db user
     = data.Returns (db, user,
         Some (if errors.Is_ErrNoRows err then data.ErrEditConflict else data.Foreign err))).
Proof.
  unfold data.UserModel_Insert, data.UserModel_Update, data.query. split.
  - intros Htext. apply String.eqb_eq in Htext. by rewrite Htext.
  - intros Htext. apply String.eqb_neq in Htext. rewrite Htext.
    split; [done|]. by destruct (errors.Is_ErrNoRows err).
Qed.

(** C8, as the specification words it, fails: the violation of [users_email_key] reported in
    another language carries the constraint, and is not taken for a duplicate
    email; it and a refused connection come back from [Insert] and [Update] as
    the driver made them, text included. *)
Lemma driver_errors_pass_through :
  (exists e, violation_in_spanish = errors.DriverError e /\
             pq.Constraint e = "users_email_key"%string) /\
  data.UserModel_Insert (Some violation_in_spanish) two_users alice
    = data.Returns (two_users, alice, Some (data.Foreign violation_in_spanish)) /\
  data.UserModel_Update (Some violation_in_spanish) two_users alice
    = data.Returns (two_users, alice, Some (data.Foreign violation_in_spanish)) /\
  data.UserModel_Insert (Some connection_refused) two_users alice
    = data.Returns (two_users, alice, Some (data.Foreign connection_refused)) /\
  data.UserModel_Update (Some connection_refused) two_users alice
    = data.Returns (two_users, alice, Some (data.Foreign connection_refused)).
Proof. split_and!; [by eexists|reflexivity..]. Qed.

(** The violation the database itself reports is recognised: a second user
    with an email that is taken gets [ErrDuplicateEmail], and no row. *)
Lemma UserModel_Insert_duplicate_email db user :
  data.email_in_use db (data.Email user) None = true ->
  data.UserModel_Insert None db user = data.Returns (db, user, Some data.ErrDuplicateEmail).
Proof.
  intros Hused. unfold data.UserModel_Insert, data.query, data.insert_user.
  by rewrite Hused.
Qed.

(** ** How many passwords, how many digests *)

Section Counting.

Import counting.

Lemma elem_of_all_bytes (b : byte) : b ∈ all_bytes.
Proof.
  apply list_elem_of_fmap. exists (Byte.to_nat b). split.
  - by rewrite Byte.of_to_nat.
  - apply elem_of_seq. pose proof (Byte.to_nat_bounded b). lia.
Qed.

Lemma of_nat_in_range k : (k < 256)%nat -> exists b, Byte.of_nat k = Some b /\ Byte.to_nat b = k.
Proof.
  intros Hk. pose proof (Byte.to_of_nat_option_map k) as H.
  replace (k <=? 255)%nat with true in H by (symmetry; apply Nat.leb_le; lia).
  destruct (Byte.of_nat k) as [b|]; [|done]. exists b. split; [done|]. by injection H.
Qed.

Lemma NoDup_all_bytes : NoDup all_bytes.
Proof.
  apply NoDup_fmap_2_strong; [|apply NoDup_seq].
  intros x y [_ Hx]%elem_of_seq [_ Hy]%elem_of_seq.
  destruct (of_nat_in_range x) as (bx & -> & <-); [lia|].
  destruct (of_nat_in_range y) as (by_ & -> & <-); [lia|].
  simpl. by intros ->.
Qed.

Lemma length_all_bytes : length all_bytes = 256%nat.
Proof. unfold all_bytes. by rewrite length_fmap, length_seq. Qed.

Lemma length_bind_const {A B} (f : A -> list B) (l : list A) k :
  (forall x, x ∈ l -> length (f x) = k) -> length (l ≫= f) = (length l * k)%nat.
Proof.
  induction l as [|x l IH]; intros Hf; [done|].
  rewrite bind_cons, length_app, IH, Hf; [simpl; lia|by left|].
  intros y Hy. apply Hf. by right.
Qed.

Lemma length_words n : length (words n) = (256 ^ n)%nat.
Proof.
  induction n as [|n IH]; [done|]. cbn [words].
  rewrite (length_bind_const _ _ 256), IH, Nat.pow_succ_r'; [lia|].
  intros w _. by rewrite length_fmap, length_all_bytes.
Qed.

Lemma elem_of_words n (w : list byte) : w ∈ words n <-> length w = n.
Proof.
  revert w. induction n as [|n IH]; intros w; cbn [words].
  - rewrite list_elem_of_singleton. split; [by intros ->|]. by destruct w.
  - rewrite list_elem_of_bind. split.
    + intros (v & (b & -> & _)%list_elem_of_fmap & Hv%IH). simpl. by rewrite Hv.
    + destruct w as [|b v]; [done|]. intros [= Hv]. exists v. split; [|by apply IH].
      apply list_elem_of_fmap. exists b. split; [done|apply elem_of_all_bytes].
Qed.

Lemma NoDup_words n : NoDup (words n).
Proof.
  induction n as [|n IH]; cbn [words]; [apply NoDup_singleton|].
  apply NoDup_bind; [| |done].
  - intros v1 v2 w _ _ (b1 & -> & _)%list_elem_of_fmap (b2 & [= _ ->] & _)%list_elem_of_fmap.
    done.
  - intros v _. apply NoDup_fmap_2; [|apply NoDup_all_bytes]. by intros b1 b2 [= ->].
Qed.

Lemma elem_of_upto n (w : list byte) : (length w <= n)%nat -> w ∈ upto n.
Proof.
  induction n as [|n IH]; intros Hw; cbn [upto].
  - apply elem_of_words. lia.
  - apply elem_of_app. destruct (decide (length w = S n)) as [Heq|Hne].
    + left. by apply elem_of_words.
    + right. apply IH. lia.
Qed.

(** There are fewer byte strings of length up to [n] than of length [n + 1]. *)
Lemma length_upto n : (255 * length (upto n) + 1 = 256 ^ S n)%nat.
Proof.
  induction n as [|n IH]; [done|]. cbn [upto].
  rewrite length_app, length_words, (Nat.pow_succ_r' 256 (S n)). lia.
Qed.

(** No function takes the byte strings of length [n + 1] to shorter ones
    without taking two of them to the same one. *)
Lemma no_injection_into_shorter (n : nat) (f : list byte -> list byte) :
  (forall w, length w = S n -> (length (f w) <= n)%nat) ->
  ~ (forall w w', length w = S n -> length w' = S n -> f w = f w' -> w = w').
Proof.
  intros Hshort Hinj.
  assert (NoDup (f <$> words (S n))) as Hnd.
  { apply NoDup_fmap_2_strong; [|apply NoDup_words].
    intros w w' Hw%elem_of_words Hw'%elem_of_words. by apply Hinj. }
  assert (f <$> words (S n) ⊆+ upto n) as Hsub.
  { apply NoDup_submseteq; [done|].
    intros h (w & -> & Hw%elem_of_words)%list_elem_of_fmap.
    apply elem_of_upto. by apply Hshort. }
  apply submseteq_length in Hsub.
  rewrite length_fmap, length_words in Hsub.
  pose proof (length_upto n). lia.
Qed.

End Counting.

Lemma length_string_of_list_byte (l : list byte) :
  String.length (String.string_of_list_byte l) = length l.
Proof.
  unfold String.string_of_list_byte. by rewrite length_string_of_list_ascii, length_map.
Qed.

(** ** Set, then Matches *)

(** C4, as the code has it: After a [Set] that succeeds, for a package whose
    digests verify the password they were made from: [Matches] accepts the
    plaintext; and for every candidate it answers [(true, nil)] when the
    package accepts the candidate for the stored digest and [(false, nil)]
    when the package reports a mismatch. *)
Theorem password_Set_then_Matches (lib : bcrypt.Package) rnd p ptPassword p' :
  data.generated_digests_verify lib ->
  data.password_Set lib rnd p ptPassword = (p', None) ->
  data.plaintext p' = Some ptPassword /\
  data.password_Matches lib p' ptPassword = (true, None) /\
  forall candidate,
    (bcrypt.CompareHashAndPassword lib (data.slice (data.hash p'))
       (String.list_byte_of_string candidate) = None ->
     data.password_Matches lib p' candidate = (true, None)) /\
    (bcrypt.CompareHashAndPassword lib (data.slice (data.hash p'))
       (String.list_byte_of_string candidate) = Some bcrypt.ErrMismatchedHashAndPassword ->
     data.password_Matches lib p' candidate = (false, None)).
Proof.
  intros Hlib. unfold data.password_Set.
  destruct (bcrypt.GenerateFromPassword lib _ 12 rnd) as [err|h] eqn:Hgen; [done|].
  intros [= <-]. split; [done|]. unfold data.password_Matches. simpl.
  split.
  - by rewrite (Hlib _ _ _ _ Hgen).
  - intros candidate. split; by intros ->.
Qed.

(** C4, as the specification words it, fails for every package whose digests are at most 60
    bytes long, as bcrypt's are: there are more passwords of 61 bytes than
    digests, so two of them share a digest, and [Matches] after a [Set] of the
    one accepts the other. *)
Lemma no_package_rejects_all_other_candidates :
  ~ exists lib : bcrypt.Package,
      data.digests_at_most lib 60 /\
      forall rnd p ptPassword p',
        8 <= data.len ptPassword <= 72 ->
        data.password_Set lib rnd p ptPassword = (p', None) ->
        data.password_Matches lib p' ptPassword = (true, None) /\
        forall candidate, candidate <> ptPassword ->
          data.password_Matches lib p' candidate = (false, None).
Proof.
  intros (lib & (rnd & Hgen) & Hspec).
  set (f := fun pw => match bcrypt.GenerateFromPassword lib pw 12 rnd with
                      | inr h => h
                      | inl _ => []
                      end).
  apply (no_injection_into_shorter 60 f).
  - intros w Hw. unfold f. destruct (Hgen w) as (h & -> & Hh); [lia|done].
  - intros w w' Hw Hw' Hf.
    destruct (decide (w = w')) as [|Hne]; [done|exfalso].
    destruct (Hgen w) as (h & Hg & _); [lia|].
    destruct (Hgen w') as (h' & Hg' & _); [lia|].
    unfold f in Hf. rewrite Hg, Hg' in Hf. subst h'.
    set (pt := String.string_of_list_byte w).
    set (pt' := String.string_of_list_byte w').
    set (p0 := {| data.plaintext := None; data.hash := None |}).
    assert (forall v, length v = 61%nat ->
              8 <= data.len (String.string_of_list_byte v) <= 72) as Hlen.
    { intros v Hv. unfold data.len. rewrite length_string_of_list_byte. lia. }
    destruct (Hspec rnd p0 pt {| data.plaintext := Some pt; data.hash := Some h |})
      as [Hyes _]; [by apply Hlen| |].
    { unfold data.password_Set, pt.
      by rewrite String.list_byte_of_string_of_list_byte, Hg. }
    destruct (Hspec rnd p0 pt' {| data.plaintext := Some pt'; data.hash := Some h |})
      as [_ Hno]; [by apply Hlen| |].
    { unfold data.password_Set, pt'.
      by rewrite String.list_byte_of_string_of_list_byte, Hg'. }
    specialize (Hno pt).
    rewrite (password_Matches_hash_only lib _
               {| data.plaintext := Some pt; data.hash := Some h |}) in Hno by done.
    rewrite Hyes in Hno. 
    assert (pt <> pt') as Hpt.
    { intros Heq. apply Hne.
      rewrite <- (String.list_byte_of_string_of_list_byte w),
              <- (String.list_byte_of_string_of_list_byte w').
      by f_equal. }
    by specialize (Hno Hpt).
Qed.

(** ** The theorems on the examples *)

Section Examples.

Import mailer mailer_example.

#[local] Abbreviation send := (mailer.Send ParseFS ExecuteTemplate m "alice@example.com").

Lemma welcome_renders :
  renders ParseFS ExecuteTemplate "user_welcome.tmpl" "Alice"
    "Welcome to Greenlight!Alice" "Hi, Alice" "<p>Hi, Alice".
Proof. eexists. split_and!; reflexivity. Qed.

(** Against a server that cannot be reached, a welcome mail is tried three
    times and [Send] returns [nil]. *)
Lemma Send_all_attempts_fail_returns_nil_witness :
  (send "user_welcome.tmpl" "Alice" unreachable).1 = None /\
  dials (log (send "user_welcome.tmpl" "Alice" unreachable).2) = (dials (log unreachable) + 3)%nat.
Proof.
  apply (Send_all_attempts_fail_returns_nil ParseFS ExecuteTemplate m
           "alice@example.com" "user_welcome.tmpl" "Alice"
           "Welcome to Greenlight!Alice" "Hi, Alice" "<p>Hi, Alice" unreachable).
  - exact welcome_renders.
  - intros k _. by eexists.
Defined.

(** A template without its HTML body: [Send] returns the error of the
    fragment and the server is never contacted. *)
Lemma Send_template_error_no_delivery_witness :
  exists err,
    render_fails_with ParseFS ExecuteTemplate "no_html.tmpl" "Alice" err /\
    send "no_html.tmpl" "Alice" unreachable = (Some err, unreachable).
Proof.
  apply (Send_template_error_no_delivery ParseFS ExecuteTemplate m
           "alice@example.com" "no_html.tmpl" "Alice"
           "html/template: htmlBody is undefined"%string unreachable).
  right. eexists _, "htmlBody"%string. split_and!; [reflexivity| |reflexivity].
  by repeat constructor.
Defined.

(** C2 on the code. Against a server that cannot be reached, [Send] makes
    its three attempts and sleeps 500ms after each of them, the third
    included: three pauses and 1500ms in all, where the specification has two
    pauses, between the attempts, and 1000ms. *)
Example Send_unreachable_server_sleeps_three_times :
  send "user_welcome.tmpl" "Alice" unreachable =
    (None,
     {| network := network unreachable;
        log := [ EvDial welcome (Some "dial tcp: i/o timeout"%string);
                 EvSleep (500 * time.Millisecond);
                 EvDial welcome (Some "dial tcp: i/o timeout"%string);
                 EvSleep (500 * time.Millisecond);
                 EvDial welcome (Some "dial tcp: i/o timeout"%string);
                 EvSleep (500 * time.Millisecond) ] |}) /\
  slept (log (send "user_welcome.tmpl" "Alice" unreachable).2) = 1500 * time.Millisecond.
Proof. split; reflexivity. Qed.

End Examples.

Section StoreExamples.

Import data_example.

(** Alice renamed at her current version, 1: the update goes through and
    her version is 2, in her struct and in her row; Bob's row is as it was. *)
Lemma UserModel_Update_checks_version_witness :
  data.users two_users !! data.ID alice_renamed = Some alice_row /\
  exists db' user',
    data.UserModel_Update None two_users alice_renamed = data.Returns (db', user', None) /\
    data.Version user' = data.Version alice_renamed + 1 /\
    data.row_version <$> data.users db' !! data.ID alice_renamed
      = Some (data.Version alice_renamed + 1) /\
    forall id, id <> data.ID alice_renamed ->
      data.users db' !! id = data.users two_users !! id.
Proof.
  split; [reflexivity|].
  destruct (UserModel_Update_checks_version two_users alice_renamed alice_row eq_refl)
    as (_ & Hcurrent & _).
  apply Hcurrent; reflexivity.
Defined.

Lemma plain_digests_verify : data.generated_digests_verify bcrypt_example.plain.
Proof.
  intros pw cost rnd h [= <-]. simpl. by rewrite !decide_True.
Qed.

Lemma plain_failures_are_of_the_digest : data.failures_are_of_the_digest bcrypt_example.plain.
Proof.
  intros h c c' err. simpl. destruct (decide (take 3 h = bcrypt_example.tag)); [|done].
  destruct (decide (drop 3 h = c)); [done|]. by intros [= <-].
Qed.

(** With the package that keeps the password as its digest: after
    [Set("pa55word")], [Matches] accepts that password. *)
Lemma password_Set_then_Matches_witness :
  let p' := {| data.plaintext := Some "pa55word"%string;
               data.hash := Some (String.list_byte_of_string "$0$pa55word") |} in
  data.plaintext p' = Some "pa55word"%string /\
  data.password_Matches bcrypt_example.plain p' "pa55word" = (true, None) /\
  forall candidate,
    (bcrypt.CompareHashAndPassword bcrypt_example.plain (data.slice (data.hash p'))
       (String.list_byte_of_string candidate) = None ->
     data.password_Matches bcrypt_example.plain p' candidate = (true, None)) /\
    (bcrypt.CompareHashAndPassword bcrypt_example.plain (data.slice (data.hash p'))
       (String.list_byte_of_string candidate) = Some bcrypt.ErrMismatchedHashAndPassword ->
     data.password_Matches bcrypt_example.plain p' candidate = (false, None)).
Proof.
  apply (password_Set_then_Matches bcrypt_example.plain tt
           {| data.plaintext := None; data.hash := None |} "pa55word").
  - exact plain_digests_verify.
  - reflexivity.
Defined.

(** With the package that keeps the password in clear: a wrong password is
    an answer, not an error; and a password that was never set has no digest
    the package can read, so [Matches] returns the failure of the package, the
    same for every candidate. *)
Lemma password_Matches_mismatch_is_not_an_error_witness :
  data.password_Matches bcrypt_example.plain
    {| data.plaintext := None; data.hash := Some (String.list_byte_of_string "$0$pa55word") |}
    "password" = (false, None) /\
  forall candidate',
    data.password_Matches bcrypt_example.plain
      {| data.plaintext := None; data.hash := None |} candidate'
      = (false, Some (bcrypt.Failure "digest without its tag")).
Proof.
  split.
  - apply (password_Matches_mismatch_is_not_an_error bcrypt_example.plain
             {| data.plaintext := None;
                data.hash := Some (String.list_byte_of_string "$0$pa55word") |} "password").
    reflexivity.
  - apply (password_Matches_mismatch_is_not_an_error bcrypt_example.plain
             {| data.plaintext := None; data.hash := None |} "password").
    + exact plain_failures_are_of_the_digest.
    + reflexivity.
Defined.

(** The user without a hash makes [ValidateUser] panic; Alice without her
    name gets a message under "name" and none under "email"; and the insert
    of the user without a hash returns. *)
Lemma ValidateUser_panics_without_hash_and_Insert_never_witness :
  data.ValidateUser email_shape validator.New nohash_user
    = data.Panics "missing password hash for user" /\
  (exists v',
     data.ValidateUser email_shape validator.New alice_unnamed = data.Returns v' /\
     "name" ∈ dom (validator.Errors v') /\ "email" ∉ dom (validator.Errors v')) /\
  exists r, data.UserModel_Insert None empty_db nohash_user = data.Returns r.
Proof.
  destruct (ValidateUser_panics_without_hash_and_Insert_never
              email_shape validator.New nohash_user) as (Hpanic & _ & Hinsert).
  destruct (ValidateUser_panics_without_hash_and_Insert_never
              email_shape validator.New alice_unnamed) as (_ & Hreturns & _).
  split_and!.
  - apply Hpanic. reflexivity.
  - destruct (Hreturns digest eq_refl) as (v' & Hv' & Hname & Hemail).
    exists v'. split_and!; [done| |].
    + apply Hname. right. left. reflexivity.
    + rewrite Hemail. intros [H|[H|H]]; [set_solver|done..].
  - apply Hinsert.
Defined.

(** The violation as the database words it is taken for a duplicate email by
    [Insert] and [Update]; a refused connection comes back as it is. *)
Lemma duplicate_email_is_detected_by_error_text_witness :
  (data.UserModel_Insert (Some data.users_email_key_violation) two_users alice
     = data.Returns (two_users, alice, Some data.ErrDuplicateEmail) /\
   data.UserModel_Update (Some data.users_email_key_violation) two_users alice
     = data.Returns (two_users, alice, Some data.ErrDuplicateEmail)) /\
  (data.UserModel_Insert (Some connection_refused) two_users alice
     = data.Returns (two_users, alice, Some (data.Foreign connection_refused)) /\
   data.UserModel_Update (Some connection_refused) two_users alice
     = data.Returns (two_users, alice, Some (data.Foreign connection_refused))).
Proof.
  split.
  - apply (duplicate_email_is_detected_by_error_text
             data.users_email_key_violation two_users alice).
    reflexivity.
  - apply (duplicate_email_is_detected_by_error_text connection_refused two_users alice).
    by apply String.eqb_neq.
Defined.

End StoreExamples.

(** * More of the code *)

(** ** Mailer.Send: what it reports and what it sends *)

Section SendMore.

Context {error Template Data : Type}.
Variable ParseFS : string -> error + Template.
Variable ExecuteTemplate : Template -> string -> Data -> error + string.

Import mailer.

#[local] Abbreviation Send := (mailer.Send ParseFS ExecuteTemplate).
#[local] Abbreviation renders := (mailer.renders ParseFS ExecuteTemplate).
#[local] Abbreviation render_fails_with := (mailer.render_fails_with ParseFS ExecuteTemplate).
#[local] Abbreviation backoff := (500 * time.Millisecond).

(** The retry loop returns [nil] however the attempts go, and all it does is
    add attempts to deliver its message, and pauses of 500ms, to the log. *)
Lemma attempts_nil_and_log n d msg (w : world error) :
  exists ext,
    attempts n d msg w = (None, {| network := network w; log := log w ++ ext |}) /\
    Forall (fun e => e = EvSleep backoff \/ exists r, e = EvDial msg r) ext.
Proof.
  revert w. induction n as [|n IH]; intros w.
  - exists []. destruct w; simpl. by rewrite app_nil_r.
  - destruct (network w (dials (log w))) as [e|] eqn:He.
    + rewrite (attempts_fail _ _ _ _ e He).
      destruct (IH {| network := network w;
                      log := log w ++ [EvDial msg (Some e); EvSleep backoff] |})
        as (ext & -> & Hext).
      exists ([EvDial msg (Some e); EvSleep backoff] ++ ext). cbn [network log].
      split; [by rewrite <- app_assoc|].
      apply Forall_app. split; [|done].
      apply Forall_cons. split; [by right; eexists|].
      apply Forall_cons. split; [by left|apply Forall_nil_2].
    + rewrite attempts_success by done. eexists. split; [done|].
      apply Forall_cons. split; [by right; eexists|apply Forall_nil_2].
Qed.

(** X1. Once the template has rendered, [Send] returns [nil] and what it
    did is fixed by the number [j] of attempts that fail before the first one
    that succeeds (3 when none of the three does): it makes [j + 1] attempts,
    never more than 3, and pauses 500ms after each attempt that failed, the
    third included, and never after the one that succeeded. *)
Theorem Send_pauses_once_per_failed_attempt
    m recipient templateFile data subject plainBody htmlBody (w : world error) :
  renders templateFile data subject plainBody htmlBody ->
  exists j,
    (j <= 3)%nat /\
    (forall k, (k < j)%nat -> is_Some (network w (dials (log w) + k))) /\
    ((j < 3)%nat -> network w (dials (log w) + j) = None) /\
    (Send m recipient templateFile data w).1 = None /\
    dials (log (Send m recipient templateFile data w).2)
      = (dials (log w) + Nat.min (j + 1) 3)%nat /\
    slept (log (Send m recipient templateFile data w).2)
      = slept (log w) + Z.of_nat j * backoff.
Proof.
  intros Hr. rewrite (Send_rendered _ _ _ _ _ _ _ _ _ _ Hr).
  assert (forall j, (j < 3)%nat ->
            (forall k, (k < j)%nat -> is_Some (network w (dials (log w) + k))) ->
            network w (dials (log w) + j) = None ->
            exists j, (j <= 3)%nat /\
              (forall k, (k < j)%nat -> is_Some (network w (dials (log w) + k))) /\
              ((j < 3)%nat -> network w (dials (log w) + j) = None) /\
              (attempts 3 (dialer m)
                 {| To := recipient; From := sender m; Subject := subject;
                    Body := ("text/plain", plainBody)%string;
                    Alternative := ("text/html", htmlBody)%string |} w).1 = None /\
              dials (log (attempts 3 (dialer m)
                 {| To := recipient; From := sender m; Subject := subject;
                    Body := ("text/plain", plainBody)%string;
                    Alternative := ("text/html", htmlBody)%string |} w).2)
                = (dials (log w) + Nat.min (j + 1) 3)%nat /\
              slept (log (attempts 3 (dialer m)
                 {| To := recipient; From := sender m; Subject := subject;
                    Body := ("text/plain", plainBody)%string;
                    Alternative := ("text/html", htmlBody)%string |} w).2)
                = slept (log w) + Z.of_nat j * backoff) as Hstop.
  { intros j Hj Hfail Hok. exists j.
    rewrite (attempts_first_success 3 j) by done. cbn [fst snd log].
    rewrite !dials_app, !slept_app, dials_failed_rounds, slept_failed_rounds.
    split_and!; [lia|done|done|done|simpl; lia|simpl; lia]. }
  destruct (network w (dials (log w) + 0)) as [e0|] eqn:H0; [|apply (Hstop 0%nat); [lia| |done]].
  2: { intros k Hk. lia. }
  destruct (network w (dials (log w) + 1)) as [e1|] eqn:H1; [|apply (Hstop 1%nat); [lia| |done]].
  2: { intros k Hk. replace k with 0%nat by lia. by rewrite H0. }
  destruct (network w (dials (log w) + 2)) as [e2|] eqn:H2; [|apply (Hstop 2%nat); [lia| |done]].
  2: { intros k Hk. destruct k as [|[|k]]; [by rewrite H0|by rewrite H1|lia]. }
  assert (forall k, (k < 3)%nat -> is_Some (network w (dials (log w) + k))) as Hfail.
  { intros k Hk. destruct k as [|[|[|k]]]; [by rewrite H0|by rewrite H1|by rewrite H2|lia]. }
  exists 3%nat. rewrite attempts_all_fail by done. cbn [fst snd log].
  rewrite dials_app, slept_app, dials_failed_rounds, slept_failed_rounds.
  split_and!; [lia|done|lia|done|simpl; lia|done].
Qed.

(** X2. An error [Send] returns is one at which rendering stopped, and then
    nothing was sent: a delivery that fails is never reported. *)
Theorem Send_reports_rendering_errors_only m recipient templateFile data (w : world error) err :
  (Send m recipient templateFile data w).1 = Some err ->
  render_fails_with templateFile data err /\
  (Send m recipient templateFile data w).2 = w.
Proof.
  unfold mailer.Send, mailer.render_fails_with.
  destruct (ParseFS _) as [e0|tmpl] eqn:Hp.
  { intros [= <-]. split; [by left|done]. }
  destruct (ExecuteTemplate tmpl "subject" data) as [e1|subject] eqn:H1.
  { intros [= <-]. split; [|done]. right. exists tmpl, "subject"%string.
    split_and!; [done|by repeat constructor|done]. }
  destruct (ExecuteTemplate tmpl "plainBody" data) as [e2|plainBody] eqn:H2.
  { intros [= <-]. split; [|done]. right. exists tmpl, "plainBody"%string.
    split_and!; [done|by repeat constructor|done]. }
  destruct (ExecuteTemplate tmpl "htmlBody" data) as [e3|htmlBody] eqn:H3.
  { intros [= <-]. split; [|done]. right. exists tmpl, "htmlBody"%string.
    split_and!; [done|by repeat constructor|done]. }
  match goal with |- context [attempts 3 ?d ?msg w] =>
    destruct (attempts_nil_and_log 3 d msg w) as (ext & -> & _) end.
  done.
Qed.

(** X3. Whatever [Send] adds to the log is a pause of 500ms or an attempt to
    deliver one message: to the recipient, from the sender the mailer was
    made with, with the rendered subject, the rendered plain text as body and
    the rendered HTML as alternative. The log it found is kept. *)
Theorem Send_sends_the_rendered_message m recipient templateFile data (w : world error) :
  exists ext,
    (Send m recipient templateFile data w).2
      = {| network := network w; log := log w ++ ext |} /\
    Forall (fun e =>
              match e with
              | EvSleep d => d = backoff
              | EvDial msg _ =>
                  To msg = recipient /\ From msg = sender m /\
                  (Body msg).1 = "text/plain"%string /\
                  (Alternative msg).1 = "text/html"%string /\
                  renders templateFile data (Subject msg) (Body msg).2 (Alternative msg).2
              end) ext.
Proof.
  assert (forall w0 : world error, w0 = {| network := network w0; log := log w0 ++ [] |}) as Hid.
  { intros [net l]. simpl. by rewrite app_nil_r. }
  unfold mailer.Send.
  destruct (ParseFS _) as [e0|tmpl] eqn:Hp; [exists []; split; [apply Hid|done]|].
  destruct (ExecuteTemplate tmpl "subject" data) as [e1|subject] eqn:H1;
    [exists []; split; [apply Hid|done]|].
  destruct (ExecuteTemplate tmpl "plainBody" data) as [e2|plainBody] eqn:H2;
    [exists []; split; [apply Hid|done]|].
  destruct (ExecuteTemplate tmpl "htmlBody" data) as [e3|htmlBody] eqn:H3;
    [exists []; split; [apply Hid|done]|].
  match goal with |- context [attempts 3 ?d ?msg w] =>
    destruct (attempts_nil_and_log 3 d msg w) as (ext & -> & Hext) end.
  exists ext. split; [done|].
  eapply Forall_impl; [exact Hext|]. intros e [->|[r ->]]; [done|].
  cbn. split_and!; try done. by exists tmpl.
Qed.

End SendMore.

(** ** Validation *)

Lemma Valid_dom v : validator.Valid v = true <-> dom (validator.Errors v) = ∅.
Proof.
  unfold validator.Valid. rewrite bool_decide_eq_true. split.
  - intros ->. apply dom_empty_L.
  - apply dom_empty_inv_L.
Qed.

(** The fields with a message after [ValidatePasswordPlainText]: those that
    had one, and "password" when the password is shorter than 8 bytes, the
    empty one included, or longer than 72. *)
Lemma ValidatePasswordPlainText_dom v password key :
  key ∈ dom (validator.Errors (data.ValidatePasswordPlainText v password)) <->
  key ∈ dom (validator.Errors v) \/
  (key = "password"%string /\ (data.len password < 8 \/ 72 < data.len password)).
Proof.
  unfold data.ValidatePasswordPlainText. rewrite !dom_Check.
  pose proof (nonempty_false password) as Hn.
  assert (password = EmptyString -> data.len password = 0) as H0 by (by intros ->).
  assert (0 <= data.len password) as Hpos by (unfold data.len; lia).
  destruct (Z.leb_spec0 8 (data.len password)), (Z.leb_spec0 (data.len password) 72),
           (data.nonempty password);
    rewrite ?elem_of_union, ?elem_of_singleton; intuition (try lia; try congruence).
Qed.

(** X4. A password passes [ValidatePasswordPlainText] exactly when it is 8
    to 72 bytes long; the check touches no field but "password". *)
Theorem ValidatePasswordPlainText_valid_iff password :
  (validator.Valid (data.ValidatePasswordPlainText validator.New password) = true <->
   8 <= data.len password <= 72) /\
  forall v key, key <> "password"%string ->
    (key ∈ dom (validator.Errors (data.ValidatePasswordPlainText v password)) <->
     key ∈ dom (validator.Errors v)).
Proof.
  split.
  - rewrite Valid_dom. split.
    + intros Hempty.
      destruct (Z.leb_spec0 8 (data.len password)), (Z.leb_spec0 (data.len password) 72);
        [lia|exfalso..];
        apply (not_elem_of_empty (C := gset string) "password"%string);
        rewrite <- Hempty; apply ValidatePasswordPlainText_dom; right; (split; [done|lia]).
    + intros Hlen. apply set_eq. intros key.
      rewrite ValidatePasswordPlainText_dom. unfold validator.New. cbn [validator.Errors].
      rewrite dom_empty_L, elem_of_empty. split; [|done]. intros [[]|[_ ?]]. lia.
  - intros v key Hkey. rewrite ValidatePasswordPlainText_dom. split; [|by left].
    by intros [?|[? _]].
Qed.

Section ValidateMore.

Variable EmailRX : validator.Regexp.

(** The fields with a message after [ValidateUser] on a fresh validator. *)
Lemma ValidateUser_fresh_dom user h :
  data.hash (data.Password user) = Some h ->
  exists v',
    data.ValidateUser EmailRX validator.New user = data.Returns v' /\
    forall key, key ∈ dom (validator.Errors v') <->
      (key = "name"%string /\
         (data.Name user = EmptyString \/ 500 < data.len (data.Name user))) \/
      (key = "email"%string /\
         (data.Email user = EmptyString \/ EmailRX (data.Email user) = false)) \/
      (key = "password"%string /\ exists pt,
         data.plaintext (data.Password user) = Some pt /\
         (data.len pt < 8 \/ 72 < data.len pt)).
Proof.
  intros Hh. unfold data.ValidateUser. rewrite Hh. eexists. split; [reflexivity|].
  intros key.
  assert (forall w,
            key ∈ dom (validator.Errors
                    (match data.plaintext (data.Password user) with
                     | Some pt => data.ValidatePasswordPlainText w pt
                     | None => w
                     end)) <->
            key ∈ dom (validator.Errors w) \/
            (key = "password"%string /\ exists pt,
               data.plaintext (data.Password user) = Some pt /\
               (data.len pt < 8 \/ 72 < data.len pt))) as Hopt.
  { intros w. destruct (data.plaintext _) as [pt|].
    - rewrite ValidatePasswordPlainText_dom. split.
      + intros [?|[? ?]]; [by left|right; eauto].
      + intros [?|(? & pt' & [= <-] & ?)]; [by left|by right].
    - split; [by left|]. by intros [?|(_ & pt & ? & _)]. }
  rewrite Hopt. unfold data.ValidateEmail, validator.Matches. rewrite !dom_Check.
  pose proof (nonempty_false (data.Name user)) as Hn.
  pose proof (nonempty_false (data.Email user)) as He.
  pose proof (Z.leb_spec0 (data.len (data.Name user)) 500) as Hl.
  unfold validator.New. cbn [validator.Errors]. rewrite dom_empty_L.
  destruct (data.nonempty (data.Name user)), (data.nonempty (data.Email user)),
           (EmailRX (data.Email user)), Hl;
    rewrite ?elem_of_union, ?elem_of_singleton, ?elem_of_empty;
    intuition (try lia; try congruence).
Qed.

(** X5. On a fresh validator and a user with a password hash, [ValidateUser]
    leaves the validator valid exactly when the name is not empty and at most
    500 bytes long, the email is not empty and of the shape [EmailRX], and the
    plaintext password, if the struct holds one, is 8 to 72 bytes long. *)
Theorem ValidateUser_valid_iff user h :
  data.hash (data.Password user) = Some h ->
  exists v',
    data.ValidateUser EmailRX validator.New user = data.Returns v' /\
    (validator.Valid v' = true <->
       data.Name user <> EmptyString /\ data.len (data.Name user) <= 500 /\
       data.Email user <> EmptyString /\ EmailRX (data.Email user) = true /\
       forall pt, data.plaintext (data.Password user) = Some pt ->
                  8 <= data.len pt <= 72).
Proof.
  intros Hh. destruct (ValidateUser_fresh_dom user h Hh) as (v' & Hv' & Hdom).
  exists v'. split; [done|]. rewrite Valid_dom. split.
  - intros Hempty.
    assert (forall key, ~ key ∈ dom (validator.Errors v')) as Hno
      by (intros key; rewrite Hempty; apply not_elem_of_empty).
    split_and!.
    + intros Hn. apply (Hno "name"%string), Hdom. left. eauto.
    + destruct (Z.leb_spec0 (data.len (data.Name user)) 500) as [|Hl]; [done|].
      exfalso. apply (Hno "name"%string), Hdom. left. split; [done|]. right. lia.
    + intros He. apply (Hno "email"%string), Hdom. right. left. eauto.
    + destruct (EmailRX (data.Email user)) eqn:He; [done|].
      exfalso. apply (Hno "email"%string), Hdom. right. left. eauto.
    + intros pt Hpt.
      destruct (Z.leb_spec0 8 (data.len pt)), (Z.leb_spec0 (data.len pt) 72); [lia|..];
        exfalso; apply (Hno "password"%string), Hdom; right; right;
        (split; [done|]); exists pt; (split; [done|]); lia.
  - intros (Hn & Hl & He & Hrx & Hpt). apply set_eq. intros key.
    rewrite Hdom, elem_of_empty. split; [|done].
    intros [(_ & [?|?])|[(_ & [?|?])|(_ & pt & Hsome & ?)]]; try done; try lia; try congruence.
    specialize (Hpt pt Hsome). lia.
Qed.

End ValidateMore.

(** The fields with a message after [ValidateTokenPlainText]: those that
    had one, and "token" when the token is not 26 bytes long. *)
Lemma ValidateTokenPlainText_dom v tokenPlainText key :
  key ∈ dom (validator.Errors (data.ValidateTokenPlainText v tokenPlainText)) <->
  key ∈ dom (validator.Errors v) \/
  (key = "token"%string /\ data.len tokenPlainText <> 26).
Proof.
  unfold data.ValidateTokenPlainText. rewrite !dom_Check.
  pose proof (nonempty_false tokenPlainText) as Hn.
  assert (tokenPlainText = EmptyString -> data.len tokenPlainText = 0) as H0 by (by intros ->).
  destruct (Z.eqb_spec (data.len tokenPlainText) 26), (data.nonempty tokenPlainText);
    rewrite ?elem_of_union, ?elem_of_singleton; intuition (try lia; try congruence).
Qed.

Lemma ValidateTokenPlainText_fresh tokenPlainText :
  dom (validator.Errors (data.ValidateTokenPlainText validator.New tokenPlainText)) = ∅ <->
  data.len tokenPlainText = 26.
Proof.
  split.
  - intros Hempty. destruct (decide (data.len tokenPlainText = 26)) as [|Hne]; [done|].
    exfalso. apply (not_elem_of_empty (C := gset string) "token"%string).
    rewrite <- Hempty. apply ValidateTokenPlainText_dom. by right.
  - intros Hlen. apply set_eq. intros key.
    rewrite ValidateTokenPlainText_dom. unfold validator.New. cbn [validator.Errors].
    rewrite dom_empty_L, elem_of_empty. split; [|done]. by intros [[]|[_ ?]].
Qed.

(** X6. A token passes [ValidateTokenPlainText] exactly when it is 26 bytes
    long, whatever the bytes are; the check touches no field but "token". *)
Theorem ValidateTokenPlainText_valid_iff tokenPlainText :
  (validator.Valid (data.ValidateTokenPlainText validator.New tokenPlainText) = true <->
   data.len tokenPlainText = 26) /\
  forall v key, key <> "token"%string ->
    (key ∈ dom (validator.Errors (data.ValidateTokenPlainText v tokenPlainText)) <->
     key ∈ dom (validator.Errors v)).
Proof.
  split.
  - rewrite Valid_dom. apply ValidateTokenPlainText_fresh.
  - intros v key Hkey. rewrite ValidateTokenPlainText_dom. split; [|by left].
    by intros [?|[? _]].
Qed.

(** X7. The plaintext of every token [generateToken] makes passes
    [ValidateTokenPlainText]. *)
Theorem generated_token_passes_validation now rnd userID ttl scope token :
  data.generateToken now rnd userID ttl scope = inr token ->
  validator.Valid (data.ValidateTokenPlainText validator.New (data.PlainText token)) = true.
Proof.
  destruct rnd as [err|stream]; [done|]. intros Hgen.
  destruct (generateToken_ok now stream userID ttl scope) as (token' & Hgen' & Hlen & _).
  rewrite Hgen in Hgen'. injection Hgen' as <-.
  apply Valid_dom, ValidateTokenPlainText_fresh. unfold data.len. by rewrite Hlen.
Qed.

(** ** Set, then ValidateUser *)

(** X8. A [Set] that fails leaves the password as it was. A [Set] that
    succeeds holds the plaintext and a hash, so that [ValidateUser] on a user
    with that password does not panic, and checks the length of the
    plaintext. *)
Theorem password_Set_then_ValidateUser (lib : bcrypt.Package) rnd p ptPassword p' err :
  data.password_Set lib rnd p ptPassword = (p', err) ->
  (err <> None -> p' = p) /\
  (err = None ->
   data.plaintext p' = Some ptPassword /\
   forall (EmailRX : validator.Regexp) v user,
     data.Password user = p' ->
     exists v',
       data.ValidateUser EmailRX v user = data.Returns v' /\
       ("password" ∈ dom (validator.Errors v') <->
          "password" ∈ dom (validator.Errors v) \/
          data.len ptPassword < 8 \/ 72 < data.len ptPassword)).
Proof.
  unfold data.password_Set.
  destruct (bcrypt.GenerateFromPassword lib _ 12 rnd) as [e|h]; intros [= <- <-].
  { split; [done|]. intros [=]. }
  split; [done|]. intros _. split; [done|].
  intros EmailRX v user Hp. unfold data.ValidateUser. rewrite Hp. cbn [data.hash data.plaintext].
  eexists. split; [reflexivity|].
  rewrite ValidatePasswordPlainText_dom.
  unfold data.ValidateEmail, validator.Matches. rewrite !dom_Check.
  repeat case_match; rewrite ?elem_of_union, ?elem_of_singleton; intuition congruence.
Qed.

(** ** The user store *)

Lemma email_in_use_true db email self :
  data.email_in_use db email self = true <->
  exists id r, data.users db !! id = Some r /\ data.row_email r = email /\ Some id <> self.
Proof.
  unfold data.email_in_use. rewrite bool_decide_eq_true, map_Exists_lookup.
  split; intros (id & r & H); exists id, r; tauto.
Qed.

Lemma email_in_use_false db email self :
  data.email_in_use db email self = false <->
  forall id r, data.users db !! id = Some r -> data.row_email r = email -> Some id = self.
Proof.
  rewrite <- not_true_iff_false, email_in_use_true. split.
  - intros Hno id r Hr He. destruct (decide (Some id = self)); [done|].
    exfalso. apply Hno. eauto.
  - intros Hall (id & r & Hr & He & Hne). by apply Hne, (Hall id r).
Qed.

(** The row [QueryRow] reads for an email, when exactly the row [id] holds it. *)
Lemma select_user_by_email_found db email id r :
  data.users db !! id = Some r ->
  data.row_email r = email ->
  (forall id' r', data.users db !! id' = Some r' -> data.row_email r' = email -> id' = id) ->
  data.select_user_by_email email db = (db, inr (id, r)).
Proof.
  intros Hr He Honly. unfold data.select_user_by_email.
  destruct (list_find _ _) as [[i [id' r']]|] eqn:Hfind.
  - apply list_find_Some in Hfind as (Hi & He' & _).
    apply list_elem_of_lookup_2, elem_of_map_to_list in Hi. simpl in He'.
    pose proof (Honly id' r' Hi He') as ->. by simplify_eq.
  - apply list_find_None in Hfind. rewrite Forall_forall in Hfind.
    exfalso. apply (Hfind (id, r)); [|done]. by apply elem_of_map_to_list.
Qed.

Lemma select_user_by_email_result db email :
  (exists id r, data.select_user_by_email email db = (db, inr (id, r)) /\
                data.users db !! id = Some r /\ data.row_email r = email) \/
  (data.select_user_by_email email db = (db, inl errors.ErrNoRows) /\
   forall id r, data.users db !! id = Some r -> data.row_email r <> email).
Proof.
  unfold data.select_user_by_email.
  destruct (list_find _ _) as [[i [id r]]|] eqn:Hfind.
  - left. apply list_find_Some in Hfind as (Hi & He & _).
    apply list_elem_of_lookup_2, elem_of_map_to_list in Hi. by exists id, r.
  - right. split; [done|]. apply list_find_None in Hfind. rewrite Forall_forall in Hfind.
    intros id r Hr. apply (Hfind (id, r)). by apply elem_of_map_to_list.
Qed.

Lemma UserModel_GetByEmail_found db email id r :
  data.users db !! id = Some r ->
  data.row_email r = email ->
  (forall id' r', data.users db !! id' = Some r' -> data.row_email r' = email -> id' = id) ->
  data.UserModel_GetByEmail None db email = (Some (data.user_of_row id r), None).
Proof.
  intros Hr He Honly. unfold data.UserModel_GetByEmail, data.query.
  by rewrite (select_user_by_email_found db email id r).
Qed.

(** X9. [GetByEmail] returns a user or an error, never both and never
    neither. A user it returns is a row of the table with the email asked for,
    field by field, and carries no plaintext password. *)
Theorem UserModel_GetByEmail_returns_a_stored_row fault db email :
  (exists id r,
     data.UserModel_GetByEmail fault db email = (Some (data.user_of_row id r), None) /\
     data.users db !! id = Some r /\ data.row_email r = email /\ fault = None) \/
  (exists err, data.UserModel_GetByEmail fault db email = (None, Some err)).
Proof.
  unfold data.UserModel_GetByEmail, data.query. destruct fault as [err|].
  - right. destruct (errors.Is_ErrNoRows err); by eexists.
  - destruct (select_user_by_email_result db email) as [(id & r & -> & Hr & He)|[-> _]].
    + left. by exists id, r.
    + right. by eexists.
Qed.

(** X10. When the query reaches the database, [GetByEmail] returns
    [ErrRecordNotFound], and no user, exactly when no row holds the email. *)
Theorem UserModel_GetByEmail_not_found db email :
  data.UserModel_GetByEmail None db email = (None, Some data.ErrRecordNotFound) <->
  forall id r, data.users db !! id = Some r -> data.row_email r <> email.
Proof.
  unfold data.UserModel_GetByEmail, data.query.
  destruct (select_user_by_email_result db email) as [(id & r & -> & Hr & He)|[-> Hno]].
  - split; [done|]. intros Hno. by destruct (Hno id r Hr).
  - done.
Qed.

(** What [Insert] does when it returns [nil]: the email was free, and the
    new row sits at the next id of the sequence, at version 1. *)
Lemma UserModel_Insert_nil fault db user db' user' :
  data.UserModel_Insert fault db user = data.Returns (db', user', None) ->
  fault = None /\
  data.email_in_use db (data.Email user) None = false /\
  data.users db' = <[data.users_id_seq db :=
                      {| data.row_created_at := data.clock db; data.row_name := data.Name user;
                         data.row_email := data.Email user;
                         data.row_password_hash := data.hash (data.Password user);
                         data.row_activated := data.Activated user;
                         data.row_version := 1 |}]> (data.users db) /\
  data.users_id_seq db' = data.users_id_seq db + 1 /\
  data.tokens db' = data.tokens db /\
  user' = {| data.ID := data.users_id_seq db; data.CreatedAt := data.clock db;
             data.Name := data.Name user; data.Email := data.Email user;
             data.Password := data.Password user; data.Activated := data.Activated user;
             data.Version := 1 |}.
Proof.
  unfold data.UserModel_Insert, data.query, data.insert_user.
  destruct fault as [err|].
  { destruct (String.eqb _ _); intros [=]. }
  destruct (data.email_in_use db (data.Email user) None) eqn:Hfree.
  { rewrite violation_has_the_duplicate_key_text. intros [=]. }
  intros [= <- <-]. done.
Qed.

(** What [Update] does when it returns [nil]. *)
Lemma UserModel_Update_nil fault db user db' user' :
  data.UserModel_Update fault db user = data.Returns (db', user', None) ->
  exists r,
    fault = None /\
    data.users db !! data.ID user = Some r /\
    data.row_version r = data.Version user /\
    data.email_in_use db (data.Email user) (Some (data.ID user)) = false /\
    data.users db' = <[data.ID user :=
                        {| data.row_created_at := data.row_created_at r;
                           data.row_name := data.Name user;
                           data.row_email := data.Email user;
                           data.row_password_hash := data.hash (data.Password user);
                           data.row_activated := data.Activated user;
                           data.row_version := data.Version user + 1 |}]> (data.users db) /\
    data.users_id_seq db' = data.users_id_seq db /\
    data.tokens db' = data.tokens db /\
    user' = {| data.ID := data.ID user; data.CreatedAt := data.CreatedAt user;
               data.Name := data.Name user; data.Email := data.Email user;
               data.Password := data.Password user; data.Activated := data.Activated user;
               data.Version := data.Version user + 1 |}.
Proof.
  unfold data.UserModel_Update, data.query, data.update_user.
  destruct fault as [err|].
  { destruct (String.eqb _ _); [intros [=]|]. destruct (errors.Is_ErrNoRows err); intros [=]. }
  destruct (data.users db !! data.ID user) as [r|] eqn:Hr; [|intros [=]].
  case_bool_decide as Hv; [|intros [=]].
  destruct (data.email_in_use db (data.Email user) (Some (data.ID user))) eqn:Hfree.
  { rewrite violation_has_the_duplicate_key_text. intros [=]. }
  intros [= <- <-]. exists r. rewrite Hv. done.
Qed.

(** X11. After an [Insert] that returns [nil], [GetByEmail] with the email
    of the user returns the user as [Insert] left it in the caller's struct:
    the id, creation time and version the database gave it, the name, email,
    hash and activation flag as given; only the plaintext password is not
    there. *)
Theorem UserModel_Insert_then_GetByEmail db user db' user' :
  data.UserModel_Insert None db user = data.Returns (db', user', None) ->
  data.UserModel_GetByEmail None db' (data.Email user) =
    (Some {| data.ID := data.ID user'; data.CreatedAt := data.CreatedAt user';
             data.Name := data.Name user; data.Email := data.Email user;
             data.Password := {| data.plaintext := None;
                                 data.hash := data.hash (data.Password user) |};
             data.Activated := data.Activated user;
             data.Version := data.Version user' |}, None).
Proof.
  intros (_ & Hfree & Husers & _ & _ & ->)%UserModel_Insert_nil.
  match type of Husers with _ = <[?id := ?row]> _ =>
    rewrite (UserModel_GetByEmail_found db' (data.Email user) id row) end; [reflexivity|..].
  - rewrite Husers. apply lookup_insert_eq.
  - done.
  - intros id' r'. rewrite Husers. intros Hr' He'.
    destruct (decide (id' = data.users_id_seq db)) as [|Hne]; [done|].
    rewrite lookup_insert_ne in Hr' by done.
    by pose proof (proj1 (email_in_use_false _ _ _) Hfree id' r' Hr' He').
Qed.

(** X12. After an [Insert] that returns [nil], an [Insert] of any user with
    the same email returns [ErrDuplicateEmail] and adds no row. *)
Theorem UserModel_Insert_same_email_twice db user db' user' second :
  data.UserModel_Insert None db user = data.Returns (db', user', None) ->
  data.Email second = data.Email user ->
  data.UserModel_Insert None db' second
    = data.Returns (db', second, Some data.ErrDuplicateEmail).
Proof.
  intros (_ & _ & Husers & _)%UserModel_Insert_nil Hemail.
  apply UserModel_Insert_duplicate_email, email_in_use_true.
  eexists _, _. rewrite Husers, lookup_insert_eq. done.
Qed.

(** [Insert] and [Update] that do not return [nil] change nothing. *)
Lemma UserModel_Insert_error fault db user db' user' err :
  data.UserModel_Insert fault db user = data.Returns (db', user', Some err) ->
  db' = db /\ user' = user.
Proof.
  unfold data.UserModel_Insert, data.query, data.insert_user.
  destruct fault as [e|].
  { destruct (String.eqb _ _); by intros [= <- <-]. }
  destruct (data.email_in_use db (data.Email user) None); [|intros [=]].
  destruct (String.eqb _ _); by intros [= <- <-].
Qed.

Lemma UserModel_Update_error fault db user db' user' err :
  data.UserModel_Update fault db user = data.Returns (db', user', Some err) ->
  db' = db /\ user' = user.
Proof.
  unfold data.UserModel_Update, data.query, data.update_user.
  assert (forall e : errors.error,
            (if String.eqb (errors.Error e) data.duplicate_key_text
             then data.Returns (db, user, Some data.ErrDuplicateEmail)
             else if errors.Is_ErrNoRows e
                  then data.Returns (db, user, Some data.ErrEditConflict)
                  else data.Returns (db, user, Some (data.Foreign e)))
            = data.Returns (db', user', Some err) -> db' = db /\ user' = user) as Hmap.
  { intros e. destruct (String.eqb _ _); [by intros [= <- <-]|].
    destruct (errors.Is_ErrNoRows e); by intros [= <- <-]. }
  destruct fault as [e|]; [apply Hmap|].
  destruct (data.users db !! data.ID user) as [r|]; [|apply Hmap].
  case_bool_decide; [|apply Hmap].
  destruct (data.email_in_use db (data.Email user) (Some (data.ID user))); [apply Hmap|].
  intros [=].
Qed.


(** X14. [Insert] and [Update] keep the emails of the table distinct,
    whatever user they are given and however the call goes. *)
Theorem UserModel_keeps_emails_unique fault db user db' user' err :
  data.emails_unique db ->
  (data.UserModel_Insert fault db user = data.Returns (db', user', err) ->
   data.emails_unique db') /\
  (data.UserModel_Update fault db user = data.Returns (db', user', err) ->
   data.emails_unique db').
Proof.
  intros Huniq.
  assert (forall id row,
            data.email_in_use db (data.row_email row) (Some id) = false \/
            data.email_in_use db (data.row_email row) None = false ->
            data.users db' = <[id := row]> (data.users db) ->
            data.emails_unique db') as Hins.
  { intros id row Hfree Husers id1 id2 r1 r2. rewrite Husers.
    assert (forall id' r', data.users db !! id' = Some r' ->
              data.row_email r' = data.row_email row -> id' = id) as Hother.
    { intros id' r' Hr' He'. destruct Hfree as [Hfree|Hfree].
      - pose proof (proj1 (email_in_use_false _ _ _) Hfree id' r' Hr' He'). by simplify_eq.
      - by pose proof (proj1 (email_in_use_false _ _ _) Hfree id' r' Hr' He'). }
    destruct (decide (id1 = id)) as [->|H1], (decide (id2 = id)) as [->|H2];
      rewrite ?lookup_insert_eq, ?lookup_insert_ne by done; try done.
    - intros [= <-] H2' He. symmetry. by apply (Hother id2 r2).
    - intros H1' [= <-] He. by apply (Hother id1 r1).
    - apply Huniq. }
  split; destruct err as [e|].
  - by intros [-> _]%UserModel_Insert_error.
  - intros (_ & Hfree & Husers & _)%UserModel_Insert_nil. eapply Hins; [|done]. by right.
  - by intros [-> _]%UserModel_Update_error.
  - intros (r & _ & _ & _ & Hfree & Husers & _)%UserModel_Update_nil.
    eapply Hins; [|done]. by left.
Qed.

(** X15. After an [Update] that returns [nil], [GetByEmail] with the email
    now on record returns the user as updated: same id, the creation time of
    the row, the new name, email, hash and activation flag, and the old
    version plus 1. *)
Theorem UserModel_Update_then_GetByEmail db user db' user' :
  data.UserModel_Update None db user = data.Returns (db', user', None) ->
  data.Version user' = data.Version user + 1 /\
  exists r,
    data.users db !! data.ID user = Some r /\
    data.UserModel_GetByEmail None db' (data.Email user) =
      (Some {| data.ID := data.ID user; data.CreatedAt := data.row_created_at r;
               data.Name := data.Name user; data.Email := data.Email user;
               data.Password := {| data.plaintext := None;
                                   data.hash := data.hash (data.Password user) |};
               data.Activated := data.Activated user;
               data.Version := data.Version user + 1 |}, None).
Proof.
  intros (r & _ & Hr & _ & Hfree & Husers & _ & _ & ->)%UserModel_Update_nil.
  split; [done|]. exists r. split; [done|].
  match type of Husers with _ = <[?id := ?row]> _ =>
    rewrite (UserModel_GetByEmail_found db' (data.Email user) id row) end; [reflexivity|..].
  - rewrite Husers. apply lookup_insert_eq.
  - done.
  - intros id' r'. rewrite Husers. intros Hr' He'.
    destruct (decide (id' = data.ID user)) as [|Hne]; [done|].
    rewrite lookup_insert_ne in Hr' by done.
    pose proof (proj1 (email_in_use_false _ _ _) Hfree id' r' Hr' He'). by simplify_eq.
Qed.


(** ** The token store *)


Lemma delete_tokens_tokens scope userID db :
  data.TokenModel_DeleteAllForUser None db scope userID =
    ({| data.users := data.users db; data.users_id_seq := data.users_id_seq db;
        data.tokens :=
          filter (fun t => ~ (data.row_scope t = scope /\ data.row_user_id t = userID))
                 (data.tokens db);
        data.clock := data.clock db |}, None).
Proof. reflexivity. Qed.

(** X18. When the statement reaches the database, [DeleteAllForUser]
    returns [nil] whether or not a token matched; the tokens left are those
    that were there and are not of that scope and user, in their order; the
    users are untouched; and a second call changes nothing more. *)
Theorem TokenModel_DeleteAllForUser_removes_exactly db scope userID :
  exists db',
    data.TokenModel_DeleteAllForUser None db scope userID = (db', None) /\
    data.users db' = data.users db /\
    (forall t, t ∈ data.tokens db' <->
       t ∈ data.tokens db /\ ~ (data.row_scope t = scope /\ data.row_user_id t = userID)) /\
    data.tokens db' `sublist_of` data.tokens db /\
    data.TokenModel_DeleteAllForUser None db' scope userID = (db', None).
Proof.
  eexists. split; [apply delete_tokens_tokens|]. cbn [data.users data.tokens].
  split_and!.
  - done.
  - intros t. rewrite list_elem_of_filter. tauto.
  - apply sublist_filter.
  - rewrite delete_tokens_tokens. cbn [data.users data.tokens data.users_id_seq data.clock].
    do 2 f_equal. rewrite list_filter_filter. apply list_filter_iff. tauto.
Qed.

(** X19. A token [New] has issued is gone after [DeleteAllForUser] for its
    scope and user, and is still stored after [DeleteAllForUser] for any other
    scope or user. *)
Theorem TokenModel_New_then_DeleteAllForUser
    db now rnd userID ttl scope db1 token scope' userID' db2 :
  data.TokenModel_New None db now rnd userID ttl scope = (db1, Some token, None) ->
  data.TokenModel_DeleteAllForUser None db1 scope' userID' = (db2, None) ->
  let row := {| data.row_hash := data.Hash token; data.row_user_id := userID;
                data.row_expiry := data.Expiry token; data.row_scope := scope |} in
  (scope' = scope /\ userID' = userID ->
   forall t, t ∈ data.tokens db2 -> ~ (data.row_scope t = scope /\ data.row_user_id t = userID)) /\
  (~ (scope' = scope /\ userID' = userID) -> row ∈ data.tokens db2).
Proof.
  intros Hnew Hdel row.
  assert (data.tokens db1 = data.tokens db ++ [row]) as Htokens.
  { revert Hnew. unfold data.TokenModel_New, data.generateToken, data.TokenModel_Insert, data.query.
    destruct (rand.Read rnd 16) as [e|randomBytes]; [done|]. by intros [= <- <-]. }
  rewrite delete_tokens_tokens in Hdel. injection Hdel as <-. cbn [data.tokens]. split.
  - intros [-> ->] t [? _]%list_elem_of_filter. done.
  - intros Hother. apply list_elem_of_filter. split.
    + subst row. cbn. intros [<- <-]. by apply Hother.
    + rewrite Htokens. apply elem_of_app. right. by apply list_elem_of_singleton.
Qed.

(** ** base32: nothing of the random bytes is lost *)

Lemma forall_bytes1 (P : Z -> bool) :
  forallb P bytewise.byte_values = true -> forall x, 0 <= x < 256 -> P x = true.
Proof.
  intros H x Hx. rewrite forallb_forall in H. apply H.
  apply list_elem_of_In, list_elem_of_fmap. exists (Z.to_nat x). split; [lia|].
  apply elem_of_seq. lia.
Qed.

Lemma forall_bytes2 (P : Z -> Z -> bool) :
  forallb (fun x => forallb (P x) bytewise.byte_values) bytewise.byte_values = true ->
  forall x y, 0 <= x < 256 -> 0 <= y < 256 -> P x y = true.
Proof.
  intros H x y Hx Hy.
  apply (forall_bytes1 (P x)); [|done].
  by apply (forall_bytes1 (fun x => forallb (P x) bytewise.byte_values)).
Qed.

(** An equation between expressions in one byte, or in two, checked on all
    their values. *)
Ltac all_bytes1 x :=
  apply Z.eqb_eq;
  match goal with |- ?b = true =>
    let P := eval pattern x in b in
    match P with ?f x => apply (forall_bytes1 f); [vm_compute; reflexivity|done] end
  end.

Ltac all_bytes2 x y :=
  apply Z.eqb_eq;
  match goal with |- ?b = true =>
    let P := eval pattern x, y in b in
    match P with ?f x y => apply (forall_bytes2 f); [vm_compute; reflexivity|done|done] end
  end.

Section Groups.

(** Two neighbours [x], [y] among the five bytes of a quantum. Each byte is
    spread over two or three of the eight groups; the lemmas give the bits of
    a byte back from the groups that hold them. *)
Variables x y : Z.
Hypothesis Hx : 0 <= x < 256.
Hypothesis Hy : 0 <= y < 256.

#[local] Abbreviation group1 := (Z.land (Z.lor (Z.land (Z.shiftl x 2) 0x1F) (Z.land (Z.shiftr y 6) 0x1F)) 31).
#[local] Abbreviation group3 := (Z.land (Z.lor (Z.land (Z.shiftl x 4) 0x1F) (Z.land (Z.shiftr y 4) 0x1F)) 31).
#[local] Abbreviation group4 := (Z.land (Z.lor (Z.land (Z.shiftl x 1) 0x1F) (Z.shiftr y 7)) 31).
#[local] Abbreviation group6 := (Z.land (Z.lor (Z.land (Z.shiftl x 3) 0x1F) (Z.shiftr y 5)) 31).

Lemma byte0_of_groups : Z.lor (Z.shiftl (Z.land (Z.shiftr x 3) 31) 3) (Z.shiftr group1 2) = x.
Proof. all_bytes2 x y. Qed.

Lemma group1_low : Z.land group1 3 = Z.shiftr y 6.
Proof. all_bytes2 x y. Qed.

Lemma group3_high : Z.shiftr group3 4 = Z.land x 1.
Proof. all_bytes2 x y. Qed.

Lemma group3_low : Z.land group3 15 = Z.shiftr y 4.
Proof. all_bytes2 x y. Qed.

Lemma group4_high : Z.shiftr group4 1 = Z.land x 15.
Proof. all_bytes2 x y. Qed.

Lemma group4_low : Z.land group4 1 = Z.shiftr y 7.
Proof. all_bytes2 x y. Qed.

Lemma group6_high : Z.shiftr group6 3 = Z.land x 3.
Proof. all_bytes2 x y. Qed.

Lemma group6_low : Z.land group6 7 = Z.shiftr y 5.
Proof. all_bytes2 x y. Qed.

Lemma byte1_of_bits :
  Z.lor (Z.lor (Z.shiftl (Z.shiftr x 6) 6)
               (Z.shiftl (Z.land (Z.land (Z.shiftr x 1) 0x1F) 31) 1))
        (Z.land x 1) = x.
Proof. all_bytes1 x. Qed.

Lemma byte2_of_bits : Z.lor (Z.shiftl (Z.shiftr x 4) 4) (Z.land x 15) = x.
Proof. all_bytes1 x. Qed.

Lemma byte3_of_bits :
  Z.lor (Z.lor (Z.shiftl (Z.shiftr x 7) 7)
               (Z.shiftl (Z.land (Z.land (Z.shiftr x 2) 0x1F) 31) 2))
        (Z.land x 3) = x.
Proof. all_bytes1 x. Qed.

Lemma byte4_of_bits :
  Z.lor (Z.shiftl (Z.shiftr x 5) 5) (Z.land (Z.land x 0x1F) 31) = x.
Proof. all_bytes1 x. Qed.

End Groups.

(** The five bytes of a quantum are determined by its eight groups. *)
Lemma quantum_inj a b c d e a' b' c' d' e' :
  0 <= a < 256 -> 0 <= b < 256 -> 0 <= c < 256 -> 0 <= d < 256 -> 0 <= e < 256 ->
  0 <= a' < 256 -> 0 <= b' < 256 -> 0 <= c' < 256 -> 0 <= d' < 256 -> 0 <= e' < 256 ->
  (fun v => Z.land v 31) <$> base32.quantum a b c d e
    = (fun v => Z.land v 31) <$> base32.quantum a' b' c' d' e' ->
  a = a' /\ b = b' /\ c = c' /\ d = d' /\ e = e'.
Proof.
  intros Ha Hb Hc Hd He Ha' Hb' Hc' Hd' He'. unfold base32.quantum. cbn [fmap list_fmap].
  intros [= H0 H1 H2 H3 H4 H5 H6 H7].
  split_and!.
  - pose proof (byte0_of_groups a b Ha Hb). pose proof (byte0_of_groups a' b' Ha' Hb').
    congruence.
  - pose proof (group1_low a b Ha Hb). pose proof (group1_low a' b' Ha' Hb').
    pose proof (group3_high b c Hb Hc). pose proof (group3_high b' c' Hb' Hc').
    pose proof (byte1_of_bits b Hb). pose proof (byte1_of_bits b' Hb').
    congruence.
  - pose proof (group3_low b c Hb Hc). pose proof (group3_low b' c' Hb' Hc').
    pose proof (group4_high c d Hc Hd). pose proof (group4_high c' d' Hc' Hd').
    pose proof (byte2_of_bits c Hc). pose proof (byte2_of_bits c' Hc').
    congruence.
  - pose proof (group4_low c d Hc Hd). pose proof (group4_low c' d' Hc' Hd').
    pose proof (group6_high d e Hd He). pose proof (group6_high d' e' Hd' He').
    pose proof (byte3_of_bits d Hd). pose proof (byte3_of_bits d' Hd').
    congruence.
  - pose proof (group6_low d e Hd He). pose proof (group6_low d' e' Hd' He').
    pose proof (byte4_of_bits e He). pose proof (byte4_of_bits e' He').
    congruence.
Qed.

(** Two groups with the same character are the same group. *)
Lemma encode_inj v v' : base32.encode v = base32.encode v' -> Z.land v 31 = Z.land v' 31.
Proof.
  assert (forall u, 0 <= Z.land u 31 < 32) as Hrange.
  { intros u. change 31 with (Z.ones 5). rewrite Z.land_ones by lia.
    apply Z.mod_pos_bound. lia. }
  assert (forall n, (n < 32)%nat ->
            fst <$> list_find (fun c => c = default "A"%char (String.get n base32.encodeStd))
                      (String.list_ascii_of_string base32.encodeStd) = Some n) as Hfind.
  { intros n Hn. do 32 (destruct n as [|n]; [reflexivity|]). lia. }
  unfold base32.encode. intros Heq.
  pose proof (Hfind (Z.to_nat (Z.land v 31)) ltac:(pose proof (Hrange v); lia)) as H1.
  pose proof (Hfind (Z.to_nat (Z.land v' 31)) ltac:(pose proof (Hrange v'); lia)) as H2.
  rewrite Heq, H2 in H1. injection H1 as H1.
  pose proof (Hrange v). pose proof (Hrange v'). lia.
Qed.

Lemma u8_range (b : byte) : 0 <= base32.u8 b < 256.
Proof. unfold base32.u8. pose proof (Byte.to_N_bounded b). lia. Qed.

Lemma u8_inj (b b' : byte) : base32.u8 b = base32.u8 b' -> b = b'.
Proof.
  unfold base32.u8. intros H%N2Z.inj%(f_equal Byte.of_N).
  rewrite !Byte.of_to_N in H. by injection H.
Qed.

Lemma chars_inj a b c d e a' b' c' d' e' :
  base32.chars a b c d e = base32.chars a' b' c' d' e' ->
  a = a' /\ b = b' /\ c = c' /\ d = d' /\ e = e'.
Proof.
  unfold base32.chars. intros Heq.
  destruct (quantum_inj (base32.u8 a) (base32.u8 b) (base32.u8 c) (base32.u8 d) (base32.u8 e)
              (base32.u8 a') (base32.u8 b') (base32.u8 c') (base32.u8 d') (base32.u8 e'))
    as (Ha & Hb & Hc & Hd & He); try apply u8_range.
  - revert Heq. unfold base32.quantum. cbn [fmap list_fmap].
    intros [= H0 H1 H2 H3 H4 H5 H6 H7].
    apply encode_inj in H0, H1, H2, H3, H4, H5, H6, H7. congruence.
  - split_and!; by apply u8_inj.
Qed.

Lemma chars_1_inj a a' :
  take 2 (base32.chars a Byte.x00 Byte.x00 Byte.x00 Byte.x00)
    = take 2 (base32.chars a' Byte.x00 Byte.x00 Byte.x00 Byte.x00) -> a = a'.
Proof.
  unfold base32.chars, base32.quantum. cbn [fmap list_fmap take].
  intros [= H0 H1]. apply encode_inj in H0, H1. apply u8_inj.
  pose proof (byte0_of_groups (base32.u8 a) (base32.u8 Byte.x00) (u8_range _) (u8_range _)).
  pose proof (byte0_of_groups (base32.u8 a') (base32.u8 Byte.x00) (u8_range _) (u8_range _)).
  congruence.
Qed.

(** The encoding of 16 bytes gives the 16 bytes back. *)
Lemma Encode_16_inj (s s' : list byte) :
  length s = 16%nat -> length s' = 16%nat ->
  base32.Encode s = base32.Encode s' -> s = s'.
Proof.
  intros Hs Hs'.
  do 17 (destruct s as [|? s]; [try done|]); [|done].
  do 17 (destruct s' as [|? s']; [try done|]); [|done].
  cbn [base32.Encode]. intros Heq.
  apply app_inj_1 in Heq as [H1 Heq]; [|reflexivity].
  apply app_inj_1 in Heq as [H2 Heq]; [|reflexivity].
  apply app_inj_1 in Heq as [H3 H4]; [|reflexivity].
  apply chars_inj in H1 as (-> & -> & -> & -> & ->).
  apply chars_inj in H2 as (-> & -> & -> & -> & ->).
  apply chars_inj in H3 as (-> & -> & -> & -> & ->).
  by apply chars_1_inj in H4 as ->.
Qed.

(** X20. Two tokens with the same plaintext were made from the same 16
    random bytes: the plaintext holds all 128 bits of them, so tokens from
    different draws of the random source differ. *)
Theorem generateToken_plaintext_determines_random_bytes
    now now' (stream stream' : nat -> byte) userID userID' ttl ttl' scope scope' token token' :
  data.generateToken now (inr stream) userID ttl scope = inr token ->
  data.generateToken now' (inr stream') userID' ttl' scope' = inr token' ->
  data.PlainText token = data.PlainText token' ->
  forall i, (i < 16)%nat -> stream i = stream' i.
Proof.
  unfold data.generateToken, rand.Read. intros [= <-] [= <-]. cbn [data.PlainText].
  unfold base32.EncodeToString.
  intros Heq%(f_equal String.list_ascii_of_string).
  rewrite !String.list_ascii_of_string_of_list_ascii in Heq.
  apply Encode_16_inj in Heq; [|reflexivity..].
  intros i Hi. injection Heq as ?. 
  do 16 (destruct i as [|i]; [done|]). lia.
Qed.

(** ** The further theorems on the examples *)

Section MoreSendExamples.

Import mailer mailer_example more_examples.

#[local] Abbreviation send := (mailer.Send ParseFS ExecuteTemplate m "alice@example.com").

(** Against the server that refuses the first connection, one attempt
    fails: two attempts and one pause. *)
Lemma Send_pauses_once_per_failed_attempt_witness :
  exists j,
    (j <= 3)%nat /\
    (forall k, (k < j)%nat -> is_Some (network flaky (dials (log flaky) + k))) /\
    ((j < 3)%nat -> network flaky (dials (log flaky) + j) = None) /\
    (send "user_welcome.tmpl" "Alice" flaky).1 = None /\
    dials (log (send "user_welcome.tmpl" "Alice" flaky).2)
      = (dials (log flaky) + Nat.min (j + 1) 3)%nat /\
    slept (log (send "user_welcome.tmpl" "Alice" flaky).2)
      = slept (log flaky) + Z.of_nat j * (500 * time.Millisecond).
Proof.
  apply (Send_pauses_once_per_failed_attempt ParseFS ExecuteTemplate m
           "alice@example.com" "user_welcome.tmpl" "Alice"
           "Welcome to Greenlight!Alice" "Hi, Alice" "<p>Hi, Alice" flaky).
  eexists. split_and!; reflexivity.
Defined.

(** The error of the template without its HTML body is one of rendering,
    and the server was not contacted. *)
Lemma Send_reports_rendering_errors_only_witness :
  render_fails_with ParseFS ExecuteTemplate "no_html.tmpl" "Alice"
    "html/template: htmlBody is undefined"%string /\
  (send "no_html.tmpl" "Alice" flaky).2 = flaky.
Proof.
  apply (Send_reports_rendering_errors_only ParseFS ExecuteTemplate m
           "alice@example.com" "no_html.tmpl" "Alice" flaky).
  reflexivity.
Defined.

End MoreSendExamples.

Section MoreStoreExamples.

Import data_example more_examples.

#[local] Abbreviation day := (86400 * time.Second).

(** Carol, whose name, email and password are as they should be, passes
    [ValidateUser]. *)
Lemma ValidateUser_valid_iff_witness :
  exists v',
    data.ValidateUser email_shape validator.New carol = data.Returns v' /\
    validator.Valid v' = true.
Proof.
  destruct (ValidateUser_valid_iff email_shape carol digest eq_refl) as (v' & Hv' & Hvalid).
  exists v'. split; [exact Hv'|]. apply Hvalid.
  split_and!; [done|by vm_compute|done|reflexivity|].
  intros pt [= <-]. by vm_compute.
Defined.

(** The token made from the bytes 0, 1, 2, ... passes the check of a token. *)
Lemma generated_token_passes_validation_witness :
  exists token,
    data.generateToken 1700000000 (inr counting_bytes) 1 day data.ScopeActivation = inr token /\
    validator.Valid (data.ValidateTokenPlainText validator.New (data.PlainText token)) = true.
Proof.
  eexists. split; [reflexivity|].
  apply (generated_token_passes_validation
           1700000000 (inr counting_bytes) 1 day data.ScopeActivation).
  reflexivity.
Defined.

(** With the package that keeps the password in clear: after
    [Set("pa55word")] a user with that password goes through [ValidateUser]
    and gets no message under "password". *)
Lemma password_Set_then_ValidateUser_witness :
  let set := data.password_Set bcrypt_example.plain tt
               {| data.plaintext := None; data.hash := None |} "pa55word" in
  let user := {| data.ID := 0; data.CreatedAt := 0; data.Name := "Carol";
                 data.Email := "carol@example.com"; data.Password := set.1;
                 data.Activated := false; data.Version := 0 |} in
  set.2 = None /\
  exists v',
    data.ValidateUser email_shape validator.New user = data.Returns v' /\
    ("password" ∈ dom (validator.Errors v') <->
       "password" ∈ dom (validator.Errors validator.New) \/
       data.len "pa55word" < 8 \/ 72 < data.len "pa55word").
Proof.
  intros set user. split; [reflexivity|].
  destruct (password_Set_then_ValidateUser bcrypt_example.plain tt
              {| data.plaintext := None; data.hash := None |} "pa55word" set.1 set.2 eq_refl)
    as [_ Hset].
  destruct (Hset eq_refl) as [_ Hvalidate].
  apply (Hvalidate email_shape validator.New user). reflexivity.
Defined.

(** Carol is inserted beside Alice and Bob and found by her email, with the
    id 3 and the version 1 of her row. *)
Lemma UserModel_Insert_then_GetByEmail_witness :
  exists db' user',
    data.UserModel_Insert None two_users carol = data.Returns (db', user', None) /\
    data.UserModel_GetByEmail None db' "carol@example.com" =
      (Some {| data.ID := 3; data.CreatedAt := 1700000002;
               data.Name := "Carol"; data.Email := "carol@example.com";
               data.Password := {| data.plaintext := None; data.hash := Some digest |};
               data.Activated := false; data.Version := 1 |}, None).
Proof.
  eexists _, _. split; [reflexivity|].
  exact (UserModel_Insert_then_GetByEmail two_users carol _ _ eq_refl).
Defined.

(** Carol inserted a second time. *)
Lemma UserModel_Insert_same_email_twice_witness :
  exists db' user',
    data.UserModel_Insert None two_users carol = data.Returns (db', user', None) /\
    data.UserModel_Insert None db' carol
      = data.Returns (db', carol, Some data.ErrDuplicateEmail).
Proof.
  eexists _, _. split; [reflexivity|].
  exact (UserModel_Insert_same_email_twice two_users carol _ _ carol eq_refl eq_refl).
Defined.

Lemma two_users_emails_unique : data.emails_unique two_users.
Proof.
  intros id1 id2 r1 r2. unfold two_users. cbn [data.users].
  rewrite !lookup_insert_Some, !lookup_empty.
  intros [[<- <-]|[_ [[<- <-]|[_ [=]]]]] [[<- <-]|[_ [[<- <-]|[_ [=]]]]]; by intros [=].
Qed.

(** The table of Alice and Bob has distinct emails, and still has after
    Carol is inserted and after Alice takes Bob's email, which is refused. *)
Lemma UserModel_keeps_emails_unique_witness :
  (exists db' user',
     data.UserModel_Insert None two_users carol = data.Returns (db', user', None) /\
     data.emails_unique db') /\
  (exists db' user' err,
     data.UserModel_Update None two_users alice_with_bobs_email
       = data.Returns (db', user', Some err) /\
     data.emails_unique db').
Proof.
  split.
  - eexists _, _. split; [reflexivity|].
    eapply (proj1 (UserModel_keeps_emails_unique None two_users carol _ _ None
                     two_users_emails_unique)).
    reflexivity.
  - eexists _, _, _. split; [reflexivity|].
    eapply (proj2 (UserModel_keeps_emails_unique None two_users alice_with_bobs_email
                     _ _ (Some _) two_users_emails_unique)).
    reflexivity.
Defined.

(** Alice renamed is found by her email with the new name and version 2. *)
Lemma UserModel_Update_then_GetByEmail_witness :
  exists db' user',
    data.UserModel_Update None two_users alice_renamed = data.Returns (db', user', None) /\
    data.Version user' = 2 /\
    exists r,
      data.users two_users !! 1 = Some r /\
      data.UserModel_GetByEmail None db' "alice@example.com" =
        (Some {| data.ID := 1; data.CreatedAt := data.row_created_at r;
                 data.Name := "Alice Liddell"; data.Email := "alice@example.com";
                 data.Password := {| data.plaintext := None; data.hash := Some digest |};
                 data.Activated := true; data.Version := 2 |}, None).
Proof.
  eexists _, _. split; [reflexivity|].
  exact (UserModel_Update_then_GetByEmail two_users alice_renamed _ _ eq_refl).
Defined.



(** Alice's activation token is still stored after her authentication
    tokens are deleted. *)
Lemma TokenModel_New_then_DeleteAllForUser_witness :
  exists db1 token db2,
    data.TokenModel_New None two_users 1700000002 (inr counting_bytes) 1 day
      data.ScopeActivation = (db1, Some token, None) /\
    data.TokenModel_DeleteAllForUser None db1 data.ScopeAuthentication 1 = (db2, None) /\
    {| data.row_hash := data.Hash token; data.row_user_id := 1;
       data.row_expiry := data.Expiry token; data.row_scope := data.ScopeActivation |}
      ∈ data.tokens db2.
Proof.
  eexists _, _, _. split; [reflexivity|]. split; [reflexivity|].
  eapply (proj2 (TokenModel_New_then_DeleteAllForUser
                   two_users 1700000002 (inr counting_bytes) 1 day data.ScopeActivation
                   _ _ data.ScopeAuthentication 1 _ eq_refl eq_refl)).
  by intros [[=] _].
Defined.

(** Two tokens of the same random bytes, for two users at two times. *)
Lemma generateToken_plaintext_determines_random_bytes_witness :
  exists token token',
    data.generateToken 1700000000 (inr counting_bytes) 1 day data.ScopeActivation = inr token /\
    data.generateToken 1700000002 (inr counting_bytes) 2 day data.ScopeAuthentication
      = inr token' /\
    data.PlainText token = data.PlainText token' /\
    forall i, (i < 16)%nat -> counting_bytes i = counting_bytes i.
Proof.
  eexists _, _. split; [reflexivity|]. split; [reflexivity|]. split; [reflexivity|].
  eapply (generateToken_plaintext_determines_random_bytes
            1700000000 1700000002 counting_bytes counting_bytes 1 2 day day
            data.ScopeActivation data.ScopeAuthentication); reflexivity.
Defined.

End MoreStoreExamples.
